(** * goschemaless / hl7: path addressing and value extraction

    A shallow embedding of the Go package [hl7] (the path parser
    [ParsePath], the validator [HL7Path.Validate] and the extraction
    engine [AbstractHL7] with its helper [splitByAnyOf]) and the
    properties of it that the specification states.

    Conventions.
    - A Go [string] is a sequence of bytes: [String.string], whose
      characters are the 8-bit [ascii].
    - A Go [int] is a [Z]; a Go [byte] is an [ascii].
    - A Go [error] is [option string]: [None] is [nil], [Some msg] is
      [errors.New(msg)].
    - Indexing and slicing are partial; where Go panics the model
      yields [Panic]. *)

From Stdlib Require Import ZArith NArith List String Ascii Bool Lia.
Import ListNotations.
Open Scope string_scope.
Open Scope Z_scope.

Definition error : Type := option string.

(** ** Executions of a Go function body

    A block of statements either falls through with a value ([Next]),
    executes a [return v, err] ([Return]), or panics at run time. *)

Inductive exec (A : Type) : Type :=
| Next (a : A)
| Return (v : string) (err : error)
| Panic.

Arguments Next {A} a.
Arguments Return {A} v err.
Arguments Panic {A}.

Definition bind {A B : Type} (c : exec A) (k : A -> exec B) : exec B :=
  match c with
  | Next a => k a
  | Return v e => Return v e
  | Panic => Panic
  end.

(** A partial primitive (indexing, slicing) panics where it is undefined. *)
Definition orPanic {A : Type} (o : option A) : exec A :=
  match o with
  | Some a => Next a
  | None => Panic
  end.

Declare Scope exec_scope.
Delimit Scope exec_scope with exec.
Notation "x <- c ;; k" := (bind c (fun x => k))
  (at level 61, c at next level, right associativity) : exec_scope.
Notation "' p <- c ;; k" := (bind c (fun x => match x with p => k end))
  (at level 61, p pattern, c at next level, right associativity) : exec_scope.
Open Scope exec_scope.

(** The result of a whole function: it never falls through. *)
Definition outcome : Type := exec Empty_set.

(** ** The parts of Go's [strings] and [slices] packages the code uses *)

Module GoStrings.

Definition CR : ascii := "013"%char.
Definition LF : ascii := "010"%char.
Definition CRLF : string := String CR (String LF EmptyString).

(** [len(s)] *)
Definition len (s : string) : Z := Z.of_nat (String.length s).

(** [s[i]]: panics unless [0 <= i < len(s)]. *)
Definition index (s : string) (i : Z) : option ascii :=
  if i <? 0 then None else String.get (Z.to_nat i) s.

(** [s[lo:hi]]: panics unless [0 <= lo <= hi <= len(s)]. *)
Definition slice (s : string) (lo hi : Z) : option string :=
  if (0 <=? lo) && (lo <=? hi) && (hi <=? len s)
  then Some (String.substring (Z.to_nat lo) (Z.to_nat (hi - lo)) s)
  else None.

(** [string(b)] for a [byte] [b]: the conversion of an integer to a
    string gives the UTF-8 encoding of that code point, which is the
    byte itself below 0x80 and two bytes from 0x80 on. *)
Definition string_of_byte (b : ascii) : string :=
  let n := N_of_ascii b in
  if (n <? 128)%N then String b EmptyString
  else String (ascii_of_N (192 + n / 64))
         (String (ascii_of_N (128 + n mod 64)) EmptyString).

(** [strings.HasPrefix(s, prefix)] *)
Definition HasPrefix (s prefix : string) : bool := String.prefix prefix s.

(** [strings.ReplaceAll(s, old, new)] for a non-empty [old]: the
    occurrences of [old] are found left to right and do not overlap.
    [skip] counts the bytes of an occurrence still to be dropped. *)
Fixpoint replaceFrom (old new : string) (skip : nat) (s : string) : string :=
  match s with
  | EmptyString => EmptyString
  | String c s' =>
      match skip with
      | S k => replaceFrom old new k s'
      | O =>
          if String.prefix old s
          then new ++ replaceFrom old new (Nat.pred (String.length old)) s'
          else String c (replaceFrom old new O s')
      end
  end.

Definition ReplaceAll (s old new : string) : string :=
  replaceFrom old new O s.

(** [strings.Split(s, sep)] for a non-empty [sep]: [s] cut at the
    occurrences of [sep], found left to right without overlap; the
    result always has one element more than there are occurrences. *)
Fixpoint splitFrom (sep : string) (skip : nat) (s : string) : list string :=
  match s with
  | EmptyString => [EmptyString]
  | String c s' =>
      match skip with
      | S k => splitFrom sep k s'
      | O =>
          if String.prefix sep s
          then EmptyString :: splitFrom sep (Nat.pred (String.length sep)) s'
          else match splitFrom sep O s' with
               | piece :: pieces => String c piece :: pieces
               | [] => [String c EmptyString]
               end
      end
  end.

Definition Split (s sep : string) : list string := splitFrom sep O s.

End GoStrings.

Module GoSlices.

(** [len(l)] *)
Definition len {A : Type} (l : list A) : Z := Z.of_nat (List.length l).

(** [l[i]]: panics unless [0 <= i < len(l)]. *)
Definition index {A : Type} (l : list A) (i : Z) : option A :=
  if i <? 0 then None else nth_error l (Z.to_nat i).

(** [l[:n]] and [l[n:]]: defined here for [0 <= n <= len(l)].  (Go lets
    [l[:n]] reach up to the capacity; the code only slices a list that
    has an element at 1, see [fieldList_total] below.) *)
Definition upto {A : Type} (l : list A) (n : Z) : option (list A) :=
  if (0 <=? n) && (n <=? len l) then Some (firstn (Z.to_nat n) l) else None.

Definition from {A : Type} (l : list A) (n : Z) : option (list A) :=
  if (0 <=? n) && (n <=? len l) then Some (skipn (Z.to_nat n) l) else None.

(** [slices.SortFunc(l, cmp)] on at most twelve elements runs an
    insertion sort: each element in turn moves left while [cmp] puts it
    strictly before its left neighbour.  [sortedRev] is the sorted
    prefix, last element first. *)
Fixpoint insertLeft {A : Type} (cmp : A -> A -> Z) (x : A) (sortedRev : list A) : list A :=
  match sortedRev with
  | [] => [x]
  | y :: rest =>
      if cmp x y <? 0 then y :: insertLeft cmp x rest else x :: sortedRev
  end.

Definition SortFunc {A : Type} (cmp : A -> A -> Z) (l : list A) : list A :=
  rev (fold_left (fun sortedRev x => insertLeft cmp x sortedRev) l []).

End GoSlices.

Import GoStrings.

(** ** internal/parseHL7Path.go: the path descriptor and its validation *)

Record HL7Path : Type := mkPath {
  Segment : string;
  SegmentIndex : Z;
  Field : Z;
  RepetitionIndex : Z;
  Component : Z;
  Subcomponent : Z
}.

(** [HL7Path{}] *)
Definition zeroPath : HL7Path := mkPath "" 0 0 0 0 0.

(** [p == q] on the struct: every field equal. *)
Definition HL7Path_eqb (p q : HL7Path) : bool :=
  (Segment p =? Segment q)%string
  && (SegmentIndex p =? SegmentIndex q)
  && (Field p =? Field q)
  && (RepetitionIndex p =? RepetitionIndex q)
  && (Component p =? Component q)
  && (Subcomponent p =? Subcomponent q).

Definition neqb (a b : Z) : bool := negb (a =? b).
Infix "!=?" := neqb (at level 70) : Z_scope.

Definition Validate (p : HL7Path) : error :=
  if (Segment p =? "")%string then
    if (SegmentIndex p !=? 0) || (Field p !=? 0) || (RepetitionIndex p !=? 0)
       || (Component p !=? 0) || (Subcomponent p !=? 0)
    then Some "if Segment is empty, the rest of the path must be empty or 0"
    else None
  else if (Segment p =? "MSH")%string && (SegmentIndex p !=? 1) then
    Some "if Segment is MSH, SegmentIndex must be 1"
  else if (Segment p =? "MSH")%string && (Field p =? 1)
          && ((Component p !=? 0) || (Subcomponent p !=? 0)) then
    Some "if Segment is MSH and Field is 1, the rest of the path must be empty or 0"
  else if (Field p !=? 0) && (Segment p =? "")%string then
    Some "if Field is set, Segment must be set"
  else if (RepetitionIndex p !=? 0) && (Field p =? 0) then
    Some "if RepetitionIndex is set, Field must be set"
  else if (Field p !=? 0) && (RepetitionIndex p =? 0) then
    Some "if Field is set, RepetitionIndex must be at least 1"
  else if (Component p !=? 0) && (Field p =? 0) then
    Some "if Component is set, Field must be set"
  else if (Subcomponent p !=? 0) && (Component p =? 0) then
    Some "if Subcomponent is set, Component must be set"
  else None.

(** ** hl7: the extraction engine *)

(** The five delimiter characters read from the header of a message. *)
Record Delimiters : Type := mkDelimiters {
  fieldSeparator : ascii;
  componentSeparator : ascii;
  repetitionSeparator : ascii;
  escapeCharacter : ascii;
  subcomponentSeparator : ascii
}.

Notation "'when' b 'fail_with' msg ;; k" :=
  (if b then Return EmptyString (Some msg) else k)
  (at level 61, b at next level, msg at next level, right associativity) : exec_scope.

(** [splitByAnyOf]: the separators are sorted longest first, every
    separator but the first is replaced by the first, and the text is
    split on the first. *)
Definition splitByAnyOf (s : string) (separators : list string) : list string :=
  match separators with
  | [] => [s]
  | _ :: _ =>
      let separators :=
        GoSlices.SortFunc (fun a b => len b - len a) separators in
      match separators with
      | [] => [s]
      | first :: others =>
          let s := fold_left (fun s sep => ReplaceAll s sep first) others s in
          Split s first
      end
  end.

(** The segments of a message, as [AbstractHL7] computes them. *)
Definition segmentsOf (message : string) : list string :=
  splitByAnyOf message [CRLF; String CR ""; String LF ""].

(** Lines 33-42 of [AbstractHL7]: the message begins with MSH and holds
    the seven characters of the delimiter block. *)
Definition readSeparators (message : string) : exec (string * ascii) :=
  when (len message <? 3) fail_with "invalid HL7 message: must begin with MSH" ;;
  head <- orPanic (slice message 0 3) ;;
  when negb (head =? "MSH")%string
    fail_with "invalid HL7 message: must begin with MSH" ;;
  when (len message <? 10)
    fail_with "invalid HL7 message: message too short to contain separators and meaningful data" ;;
  separators <- orPanic (slice message 3 10) ;;
  fieldSeparator <- orPanic (index separators 0) ;;
  Next (separators, fieldSeparator).

(** The loop over [separatorsSet] with the [seen] map: is some separator
    met a second time? *)
Fixpoint repeatedIn (seen : ascii -> bool) (separatorsSet : list ascii) : bool :=
  match separatorsSet with
  | [] => false
  | sep :: rest =>
      if seen sep then true
      else repeatedIn (fun b => if Ascii.eqb b sep then true else seen b) rest
  end.

(** Lines 47-78 of [AbstractHL7]: the other four delimiters, the closing
    pair and the uniqueness of the five. *)
Definition checkSeparators (separators : string) (fieldSeparator : ascii)
  : exec Delimiters :=
  componentSeparator <- orPanic (index separators 1) ;;
  when (Ascii.eqb componentSeparator fieldSeparator)
    fail_with "missing component separator" ;;
  repetitionSeparator <- orPanic (index separators 2) ;;
  when (Ascii.eqb repetitionSeparator fieldSeparator)
    fail_with "missing repetition separator" ;;
  escapeCharacter <- orPanic (index separators 3) ;;
  when (Ascii.eqb escapeCharacter fieldSeparator)
    fail_with "missing escape character" ;;
  subcomponentSeparator <- orPanic (index separators 4) ;;
  when (Ascii.eqb subcomponentSeparator fieldSeparator)
    fail_with "missing subcomponent separator" ;;
  sep5 <- orPanic (index separators 5) ;;
  closing <- (if negb (Ascii.eqb sep5 fieldSeparator)
              then sep6 <- orPanic (index separators 6) ;;
                   Next (Ascii.eqb sep6 fieldSeparator)
              else Next true) ;;
  when negb closing fail_with "unexpected extra separators" ;;
  when repeatedIn (fun _ => false)
         [fieldSeparator; componentSeparator; repetitionSeparator;
          escapeCharacter; subcomponentSeparator]
    fail_with "separators must be unique" ;;
  Next (mkDelimiters fieldSeparator componentSeparator repetitionSeparator
          escapeCharacter subcomponentSeparator).

Definition isMSH (path : HL7Path) : bool := (Segment path =? "MSH")%string.

(** Lines 101-107: the field list of the target segment; for MSH the
    field separator is put in at index 1. *)
Definition fieldList (d : Delimiters) (path : HL7Path) (segment : string)
  : exec (list string) :=
  let fields := Split segment (string_of_byte (fieldSeparator d)) in
  if isMSH path then
    front <- orPanic (GoSlices.upto fields 1) ;;
    back <- orPanic (GoSlices.from fields 1) ;;
    Next (front ++ (string_of_byte (fieldSeparator d) :: back))%list
  else Next fields.

(** Lines 118-123: the repetitions of a field; MSH-2 is not split. *)
Definition repetitionList (d : Delimiters) (path : HL7Path) (field : string)
  : list string :=
  if negb (isMSH path && (Field path =? 2))
  then Split field (string_of_byte (repetitionSeparator d))
  else [field].

Definition componentList (d : Delimiters) (repetition : string) : list string :=
  Split repetition (string_of_byte (componentSeparator d)).

Definition subcomponentList (d : Delimiters) (component : string) : list string :=
  Split component (string_of_byte (subcomponentSeparator d)).

(** Lines 96-153: what is returned once the target segment is found. *)
Definition extractFrom (d : Delimiters) (path : HL7Path) (segment : string)
  : outcome :=
  if Field path =? 0 then Return segment None else
  fields <- fieldList d path segment ;;
  if Field path >=? GoSlices.len fields then Return "" None else
  field <- orPanic (GoSlices.index fields (Field path)) ;;
  let repetitions := repetitionList d path field in
  if RepetitionIndex path >? GoSlices.len repetitions then Return "" None else
  repetition <- orPanic (GoSlices.index repetitions (RepetitionIndex path - 1)) ;;
  if Component path =? 0 then Return repetition None else
  let components := componentList d repetition in
  if Component path >? GoSlices.len components then Return "" None else
  component <- orPanic (GoSlices.index components (Component path - 1)) ;;
  if Subcomponent path =? 0 then Return component None else
  let subcomponents := subcomponentList d component in
  if Subcomponent path >? GoSlices.len subcomponents then Return "" None else
  subcomponent <- orPanic (GoSlices.index subcomponents (Subcomponent path - 1)) ;;
  Return subcomponent None.

(** Lines 90-158: the loop over the segments with its running count. *)
Fixpoint scanSegments (d : Delimiters) (path : HL7Path) (segmentCount : Z)
    (segments : list string) : outcome :=
  match segments with
  | [] => Return "" None
  | segment :: rest =>
      if HasPrefix segment (Segment path) then
        let segmentCount := segmentCount + 1 in
        if segmentCount =? SegmentIndex path
        then extractFrom d path segment
        else scanSegments d path segmentCount rest
      else scanSegments d path segmentCount rest
  end.

Definition AbstractHL7 (message : string) (path : HL7Path) : outcome :=
  match Validate path with
  | Some err => Return "" (Some err)
  | None =>
      if HL7Path_eqb path zeroPath then Return message None else
      '(separators, fieldSeparator) <- readSeparators message ;;
      if isMSH path && (Field path =? 1)
      then Return (string_of_byte fieldSeparator) None else
      d <- checkSeparators separators fieldSeparator ;;
      scanSegments d path 0 (segmentsOf message)
  end.

(** ** internal/parseHL7Path.go: the path parser *)

(** Go's [regexp], as far as [pathExp] needs it: byte classes, sequence,
    a greedy optional group, a greedy repetition of a class, and a
    numbered capture group.  Matching is by backtracking with the
    preferences of the leftmost-first semantics: an optional group is
    tried before it is skipped, a repetition takes the longest run
    first. *)
Module GoRegexp.

Inductive regex : Type :=
| Class (p : ascii -> bool)
| Cat (r1 r2 : regex)
| Opt (r : regex)
| Plus (p : ascii -> bool)
| Capture (i : nat) (r : regex).

(** The text of the capture groups; a group that took no part in the
    match reads as the empty string, as in [FindStringSubmatch]. *)
Definition captures : Type := nat -> string.

Definition noCaptures : captures := fun _ => EmptyString.

Definition setCapture (i : nat) (text : string) (caps : captures) : captures :=
  fun j => if Nat.eqb j i then text else caps j.

(** What was consumed between the input [s] and its suffix [rest]. *)
Definition consumed (s rest : string) : string :=
  String.substring 0 (String.length s - String.length rest) s.

Definition orElse {A : Type} (a b : option A) : option A :=
  match a with
  | Some x => Some x
  | None => b
  end.

Section Matching.
Context {R : Type}.

Fixpoint matchPlus (p : ascii -> bool) (s : string)
    (k : string -> option R) : option R :=
  match s with
  | EmptyString => None
  | String c s' =>
      if p c then orElse (matchPlus p s' k) (k s') else None
  end.

Fixpoint matchRegex (r : regex) (s : string) (caps : captures)
    (k : string -> captures -> option R) : option R :=
  match r with
  | Class p =>
      match s with
      | String c s' => if p c then k s' caps else None
      | EmptyString => None
      end
  | Cat r1 r2 =>
      matchRegex r1 s caps (fun s1 caps1 => matchRegex r2 s1 caps1 k)
  | Opt r1 => orElse (matchRegex r1 s caps k) (k s caps)
  | Plus p => matchPlus p s (fun s1 => k s1 caps)
  | Capture i r1 =>
      matchRegex r1 s caps
        (fun s1 caps1 => k s1 (setCapture i (consumed s s1) caps1))
  end.
End Matching.

(** [FindStringSubmatch] for a pattern [^ r $] with [groups] capture
    groups: the whole text matches or nothing does; element 0 of the
    result is the whole match. *)
Definition FindStringSubmatch (r : regex) (groups : nat) (s : string)
  : option (list string) :=
  matchRegex (Capture 0 r) s noCaptures
    (fun rest caps =>
       match rest with
       | EmptyString => Some (map caps (seq 0 (S groups)))
       | String _ _ => None
       end).

End GoRegexp.

Import GoRegexp.

Definition between (lo hi c : ascii) : bool :=
  (N_of_ascii lo <=? N_of_ascii c)%N && (N_of_ascii c <=? N_of_ascii hi)%N.

Definition upper (c : ascii) : bool := between "A" "Z" c.
Definition digit (c : ascii) : bool := between "0" "9" c.
Definition upperOrDigit (c : ascii) : bool := upper c || digit c.
Definition lit (a : ascii) : regex := Class (Ascii.eqb a).
(** [[-\.]] *)
Definition sep : regex := Class (fun c => Ascii.eqb c "-" || Ascii.eqb c ".").
(** [(?:\[(\d+)\])?] with capture group [i] *)
Definition bracketed (i : nat) : regex :=
  Opt (Cat (lit "[") (Cat (Capture i (Plus digit)) (lit "]"))).

(** [([A-Z][A-Z0-9]{2})] *)
Definition segmentName : regex :=
  Capture 1 (Cat (Class upper) (Cat (Class upperOrDigit) (Class upperOrDigit))).

(** [(?:\[(\d+)\])?(?:[-\.](\d+)(?:\[(\d+)\])?(?:[-\.](\d+)(?:[-\.](\d+))?)?)?] *)
Definition afterSegment : regex :=
  Cat (bracketed 2)
      (Opt (Cat sep (Cat (Capture 3 (Plus digit))
           (Cat (bracketed 4)
                (Opt (Cat sep (Cat (Capture 5 (Plus digit))
                     (Opt (Cat sep (Capture 6 (Plus digit))))))))))).

(** [^([A-Z][A-Z0-9]{2})(?:\[(\d+)\])?(?:[-\.](\d+)(?:\[(\d+)\])?(?:[-\.](\d+)(?:[-\.](\d+))?)?)?$]
    between its anchors. *)
Definition pathExp : regex := Cat segmentName afterSegment.

(** [parseSegmentNameOrError].  The source ranges over the runes of [s];
    this model ranges over its bytes, which gives the same results: a
    byte from 0x80 on belongs to a rune that is no letter and no digit,
    and that rune starts at index 0 exactly when the byte at index 0 is
    such a byte. *)
Fixpoint segmentNameLoop (i : nat) (s : string) : error :=
  match s with
  | EmptyString => None
  | String char rest =>
      if Nat.eqb i 0 then
        if negb (upper char)
        then Some "segment name must begin with an uppercase letter"
        else segmentNameLoop (S i) rest
      else if negb (upper char) && negb (digit char)
      then Some "segment name must be uppercase alphanumeric"
      else segmentNameLoop (S i) rest
  end.

Definition parseSegmentNameOrError (s : string) : string * error :=
  if len s !=? 3 then ("", Some "segment name must be 3 characters")
  else match segmentNameLoop 0 s with
       | Some err => ("", Some err)
       | None => (s, None)
       end.

(** The value of a run of decimal digits. *)
Definition digitValue (c : ascii) : Z := Z.of_N (N_of_ascii c) - 48.

Fixpoint decimalFrom (acc : Z) (s : string) : option Z :=
  match s with
  | EmptyString => Some acc
  | String c rest =>
      if digit c then decimalFrom (10 * acc + digitValue c) rest else None
  end.

Definition maxInt : Z := 2 ^ 63 - 1.

(** [fmt.Sscanf(s, "%d", &res)] on a run of decimal digits: the run is
    the token, converted by [strconv.ParseInt(tok, 10, 64)], which fails
    with a range error when the value does not fit an [int] of 64 bits.
    Runs of decimal digits are the only texts [ParsePath] has it read:
    they are the captures of [\d+] in [pathExp], as
    [pathExp_captures_numbers] shows.  The rules of [Sscanf] for a
    sign, for leading space and for text after the digits are not
    modelled: on a text of another form the model reports an error, and
    every property of [parseIntOrDefault] below is stated for the empty
    text or a run of digits only. *)
Definition Sscanf_d (s : string) : option Z :=
  match s with
  | EmptyString => None
  | String _ _ =>
      match decimalFrom 0 s with
      | Some v => if v <=? maxInt then Some v else None
      | None => None
      end
  end.

Definition parseIntOrDefault (s : string) (defaultVal : Z) : Z :=
  if (s =? "")%string then defaultVal
  else match Sscanf_d s with
       | Some res => res
       | None => defaultVal
       end.

(** [match[i]]: the captures are read at the fixed indices 1 to 6 of a
    list of seven. *)
Definition group (match_ : list string) (i : nat) : string :=
  nth i match_ EmptyString.

Definition ParsePath (path : string) : HL7Path * error :=
  let res := zeroPath in
  if (path =? "")%string then (res, None) else
  match FindStringSubmatch pathExp 6 path with
  | None => (res, Some "invalid path format")
  | Some match_ =>
      match parseSegmentNameOrError (group match_ 1) with
      | (_, Some err) => (res, Some err)
      | (segment, None) =>
          let segmentIndex := parseIntOrDefault (group match_ 2) 1 in
          let field := parseIntOrDefault (group match_ 3) 0 in
          let def := if field >? 0 then 1 else 0 in
          let repetitionIndex := parseIntOrDefault (group match_ 4) def in
          let component := parseIntOrDefault (group match_ 5) 0 in
          let subcomponent := parseIntOrDefault (group match_ 6) 0 in
          (mkPath segment segmentIndex field repetitionIndex component subcomponent,
           None)
      end
  end.

(** ** The repository's tests, run on the model *)

(** A message made of segment texts with one line terminator between
    each two. *)
Definition joinLines (terminator : string) (lines : list string) : string :=
  String.concat terminator lines.

Module Tests.

Definition lines : list string :=
  [ "MSH|^~\&|HIS|RIH|EKG|EKG|20060529090131||ADT^A01|MSG00001|P|2.5";
    "PID|||555-44-4444^^^^SSN~123^^^^MRN||EVERYWOMAN^EVE^E^^^^L~QUE^SUZY^^^^^N||19610615|F||C|2222 HOMES TREET^^GREENSBORO^NC^27401||(919)379-1212|(919)271-3434||S||555-55-5555";
    "PV1||I|2000^2012^01||||004777^LEBAUER^JAMES^A^^^^MD|||||||||||V";
    "OBX|1|ST|^Body Height||1.80|m|1.50-2.00|N|||F";
    "OBX|2|ST|^Body Weight||79|kg|50-100|N|||F";
    "ZZZ||This is~a^custom&segment&with^custom&fields";
    "ZZZ||foo|bar|baz" ].

Definition message : string := joinLines (String CR "") lines.

(** [ParsePath] followed by [AbstractHL7], as every case of
    [TestAbstractHL7] does. *)
Definition query (message path : string) : outcome :=
  AbstractHL7 message (fst (ParsePath path)).

End Tests.

(** ** What the specification speaks of *)

(** A segment matches a name when its text starts with the name. *)
Definition matchesName (name segment : string) : bool := HasPrefix segment name.

(** The matching segments, in message order. *)
Definition matching (name : string) (segments : list string) : list string :=
  filter (matchesName name) segments.

(** The number of matches met once the segments [scanned] are behind. *)
Definition matchCount (name : string) (scanned : list string) : Z :=
  GoSlices.len (matching name scanned).

(** The segment at which the count of matches, taken in message order,
    first equals the segment index: the match number [SegmentIndex],
    counted from 1. *)
Definition targetSegment (path : HL7Path) (segments : list string)
  : option string :=
  if 1 <=? SegmentIndex path
  then nth_error (matching (Segment path) segments)
         (Z.to_nat (SegmentIndex path - 1))
  else None.

(** The five integer fields of a path are not negative. *)
Definition nonNegative (path : HL7Path) : Prop :=
  0 <= SegmentIndex path /\ 0 <= Field path /\ 0 <= RepetitionIndex path
  /\ 0 <= Component path /\ 0 <= Subcomponent path.

(** The message passes every check of lines 33-78 and its delimiters
    are [d]. *)
Definition passesHeaderChecks (m : string) (d : Delimiters) : Prop :=
  exists block fs,
    readSeparators m = Next (block, fs) /\ checkSeparators block fs = Next d.

(** Element number [i] of a list, counted from 1; [None] out of range. *)
Definition lookup1 {A : Type} (l : list A) (i : Z) : option A :=
  GoSlices.index l (i - 1).

(** The data a path addresses is absent from the segments of a message:
    there is no target segment, or an index of the path is out of range
    for the list it selects from. *)
Inductive Absent (d : Delimiters) (segments : list string) (path : HL7Path)
  : Prop :=
| SegmentNotFound :
    targetSegment path segments = None ->
    Absent d segments path
| FieldOutOfRange (segment : string) (fields : list string) :
    targetSegment path segments = Some segment ->
    Field path <> 0 ->
    fieldList d path segment = Next fields ->
    GoSlices.index fields (Field path) = None ->
    Absent d segments path
| RepetitionOutOfRange (segment : string) (fields : list string) (field : string) :
    targetSegment path segments = Some segment ->
    Field path <> 0 ->
    fieldList d path segment = Next fields ->
    GoSlices.index fields (Field path) = Some field ->
    lookup1 (repetitionList d path field) (RepetitionIndex path) = None ->
    Absent d segments path
| ComponentOutOfRange (segment : string) (fields : list string)
    (field repetition : string) :
    targetSegment path segments = Some segment ->
    Field path <> 0 ->
    fieldList d path segment = Next fields ->
    GoSlices.index fields (Field path) = Some field ->
    lookup1 (repetitionList d path field) (RepetitionIndex path) = Some repetition ->
    Component path <> 0 ->
    lookup1 (componentList d repetition) (Component path) = None ->
    Absent d segments path
| SubcomponentOutOfRange (segment : string) (fields : list string)
    (field repetition component : string) :
    targetSegment path segments = Some segment ->
    Field path <> 0 ->
    fieldList d path segment = Next fields ->
    GoSlices.index fields (Field path) = Some field ->
    lookup1 (repetitionList d path field) (RepetitionIndex path) = Some repetition ->
    Component path <> 0 ->
    lookup1 (componentList d repetition) (Component path) = Some component ->
    Subcomponent path <> 0 ->
    lookup1 (subcomponentList d component) (Subcomponent path) = None ->
    Absent d segments path.

(** Byte [i] of a message; the zero byte where the message has none. *)
Definition byteAt (m : string) (i : Z) : ascii :=
  match index m i with
  | Some c => c
  | None => zero
  end.

(** No byte occurs twice in the list. *)
Fixpoint pairwiseDistinct (l : list ascii) : bool :=
  match l with
  | [] => true
  | a :: rest => negb (existsb (Ascii.eqb a) rest) && pairwiseDistinct rest
  end.

(** The header checks of a call, in order: each is a condition on the
    message and the path, with what the call returns when the condition
    holds.  Bytes 3 to 9 of the message are the delimiter block: 3 to 7
    the field, component, repetition, escape and subcomponent
    delimiters, 8 and 9 the closing pair. *)
Definition headerChecks (m : string) (path : HL7Path)
  : list (bool * (string * error)) :=
  let fs := byteAt m 3 in
  [ (negb (HasPrefix m "MSH"),
     ("", Some "invalid HL7 message: must begin with MSH"));
    (len m <? 10,
     ("", Some "invalid HL7 message: message too short to contain separators and meaningful data"));
    (isMSH path && (Field path =? 1),
     (string_of_byte fs, None));
    (Ascii.eqb (byteAt m 4) fs,
     ("", Some "missing component separator"));
    (Ascii.eqb (byteAt m 5) fs,
     ("", Some "missing repetition separator"));
    (Ascii.eqb (byteAt m 6) fs,
     ("", Some "missing escape character"));
    (Ascii.eqb (byteAt m 7) fs,
     ("", Some "missing subcomponent separator"));
    (negb (Ascii.eqb (byteAt m 8) fs) && negb (Ascii.eqb (byteAt m 9) fs),
     ("", Some "unexpected extra separators"));
    (negb (pairwiseDistinct
             [fs; byteAt m 4; byteAt m 5; byteAt m 6; byteAt m 7]),
     ("", Some "separators must be unique")) ].

(** What goes with the first condition of the list that holds. *)
Fixpoint firstApplying {A : Type} (checks : list (bool * A)) : option A :=
  match checks with
  | [] => None
  | (true, a) :: _ => Some a
  | (false, _) :: rest => firstApplying rest
  end.

(** The five delimiters a message declares in bytes 3 to 7. *)
Definition delimitersOf (m : string) : Delimiters :=
  mkDelimiters (byteAt m 3) (byteAt m 4) (byteAt m 5) (byteAt m 6)
    (byteAt m 7).

(** The error of a message whose closing pair is open, for a path that
    is not MSH field 1: that of the first delimiter that repeats the
    field separator, the one of the closing pair when none does. *)
Definition openPairError (m : string) : string :=
  let fs := byteAt m 3 in
  if Ascii.eqb (byteAt m 4) fs then "missing component separator"
  else if Ascii.eqb (byteAt m 5) fs then "missing repetition separator"
  else if Ascii.eqb (byteAt m 6) fs then "missing escape character"
  else if Ascii.eqb (byteAt m 7) fs then "missing subcomponent separator"
  else "unexpected extra separators".

(** The segment token of a path text: what stands before the first
    bracket, hyphen or dot. *)
Fixpoint segmentToken (s : string) : string :=
  match s with
  | EmptyString => EmptyString
  | String c rest =>
      if Ascii.eqb c "[" || Ascii.eqb c "-" || Ascii.eqb c "."
      then EmptyString
      else String c (segmentToken rest)
  end.

(** The capture groups inside a pattern. *)
Fixpoint groupsOf (r : regex) : list nat :=
  match r with
  | Class _ | Plus _ => []
  | Cat r1 r2 => groupsOf r1 ++ groupsOf r2
  | Opt r1 => groupsOf r1
  | Capture i r1 => i :: groupsOf r1
  end.

(** No byte of [s] is [c]. *)
Fixpoint avoids (c : ascii) (s : string) : bool :=
  match s with
  | EmptyString => true
  | String a rest => negb (Ascii.eqb a c) && avoids c rest
  end.

(** ** Messages and delimiters used as examples *)

Definition usualDelimiters : Delimiters := mkDelimiters "|" "^" "~" "\" "&".

Definition exampleHeader : string := "MSH|^~\&|HIS|RIH|".

Definition shortMessage : string :=
  joinLines (String LF "") ["MSH|^~\&|A"; "PID|1|2"].

Definition openPairMessage : string := "MSH|^~\&XYZ".

(** A header whose component delimiter repeats the field separator and
    whose closing pair is open as well. *)
Definition doubledSeparatorMessage : string := "MSH||~\&XYZ".

Definition negativeFieldPath : HL7Path := mkPath "MSH" 1 (-1) 1 0 0.

Definition twoSegments : list string := ["MSH|^~\&|A"; "PID|1"].

Definition endingInCR (s : string) : string := s ++ String CR "".

(** ** The texts of the path grammar *)

(** The parts of a path text
    [SEGMENT[INDEX] SEP FIELD[REPETITION] SEP COMPONENT SEP SUBCOMPONENT],
    each optional part present or not; numbers are kept as written. *)
Record SubText : Type := mkSub {
  subSep : ascii;
  subDigits : string
}.

Record CompText : Type := mkComp {
  compSep : ascii;
  compDigits : string;
  compSub : option SubText
}.

Record FieldText : Type := mkField {
  fieldSep : ascii;
  fieldDigits : string;
  fieldRepetition : option string;
  fieldComp : option CompText
}.

Record PathText : Type := mkText {
  textSegment : string;
  textIndex : option string;
  textField : option FieldText
}.

Definition renderBracket (o : option string) : string :=
  match o with
  | Some ds => String "[" (ds ++ "]")
  | None => ""
  end.

Definition renderSub (o : option SubText) : string :=
  match o with
  | Some t => String (subSep t) (subDigits t)
  | None => ""
  end.

Definition renderComp (o : option CompText) : string :=
  match o with
  | Some t => String (compSep t) (compDigits t ++ renderSub (compSub t))
  | None => ""
  end.

Definition renderField (o : option FieldText) : string :=
  match o with
  | Some t =>
      String (fieldSep t)
        (fieldDigits t ++ renderBracket (fieldRepetition t)
           ++ renderComp (fieldComp t))
  | None => ""
  end.

(** The text itself. *)
Definition render (t : PathText) : string :=
  textSegment t ++ renderBracket (textIndex t) ++ renderField (textField t).

Fixpoint allDigits (s : string) : bool :=
  match s with
  | EmptyString => true
  | String c rest => digit c && allDigits rest
  end.

(** A number of the grammar: one decimal digit or more. *)
Definition isNumber (s : string) : bool :=
  negb (s =? "")%string && allDigits s.

(** What a capture group of [pathExp] for a number can hold: nothing,
    when the group took no part in the match, or a number. *)
Definition emptyOrNumber (s : string) : bool := (s =? "")%string || isNumber s.

Definition isSep (c : ascii) : bool := Ascii.eqb c "-" || Ascii.eqb c ".".

Definition optNumber (o : option string) : bool :=
  match o with
  | Some ds => isNumber ds
  | None => true
  end.

Definition isSegmentName (s : string) : bool :=
  match s with
  | String c1 (String c2 (String c3 EmptyString)) =>
      upper c1 && upperOrDigit c2 && upperOrDigit c3
  | _ => false
  end.

Definition wellFormedSub (o : option SubText) : bool :=
  match o with
  | Some t => isSep (subSep t) && isNumber (subDigits t)
  | None => true
  end.

Definition wellFormedComp (o : option CompText) : bool :=
  match o with
  | Some t =>
      isSep (compSep t) && isNumber (compDigits t) && wellFormedSub (compSub t)
  | None => true
  end.

Definition wellFormedField (o : option FieldText) : bool :=
  match o with
  | Some t =>
      isSep (fieldSep t) && isNumber (fieldDigits t)
      && optNumber (fieldRepetition t) && wellFormedComp (fieldComp t)
  | None => true
  end.

(** The text is one of the grammar. *)
Definition wellFormed (t : PathText) : bool :=
  isSegmentName (textSegment t) && optNumber (textIndex t)
  && wellFormedField (textField t).

Definition written (o : option string) : string :=
  match o with
  | Some ds => ds
  | None => ""
  end.

(** The path a text of the grammar stands for: every number as
    [parseIntOrDefault] reads it, the defaults where a part is absent. *)
Definition pathOfText (t : PathText) : HL7Path :=
  let fieldText := option_map fieldDigits (textField t) in
  let repetitionText :=
    match textField t with Some f => fieldRepetition f | None => None end in
  let compText :=
    match textField t with Some f => fieldComp f | None => None end in
  let subText :=
    match compText with Some c => compSub c | None => None end in
  let field := parseIntOrDefault (written fieldText) 0 in
  mkPath (textSegment t)
    (parseIntOrDefault (written (textIndex t)) 1)
    field
    (parseIntOrDefault (written repetitionText) (if field >? 0 then 1 else 0))
    (parseIntOrDefault (written (option_map compDigits compText)) 0)
    (parseIntOrDefault (written (option_map subDigits subText)) 0).

(** The options for a capture group: set when the part is present. *)
Definition setOptional (i : nat) (o : option string) (caps : captures) : captures :=
  match o with
  | Some ds => setCapture i ds caps
  | None => caps
  end.

(** The text does not go on with a digit. *)
Definition noDigitAhead (rest : string) : bool :=
  match rest with
  | EmptyString => true
  | String c _ => negb (digit c)
  end.

(** The text does not go on with an opening bracket. *)
Definition noBracketAhead (rest : string) : bool :=
  match rest with
  | EmptyString => true
  | String c _ => negb (Ascii.eqb "[" c)
  end.

(** [(?:[-\.](\d+))?], the subcomponent part of [pathExp]. *)
Definition subPart : regex := Opt (Cat sep (Capture 6 (Plus digit))).

(** [(?:[-\.](\d+)(?:[-\.](\d+))?)?], the component part of [pathExp]. *)
Definition compPart : regex :=
  Opt (Cat sep (Cat (Capture 5 (Plus digit)) subPart)).

(** The field part of [pathExp]. *)
Definition fieldPart : regex :=
  Opt (Cat sep (Cat (Capture 3 (Plus digit)) (Cat (bracketed 4) compPart))).

(** The capture groups 1 to 6 of a text of the grammar. *)
Definition capturesOfText (t : PathText) : captures :=
  let repetitionText :=
    match textField t with Some f => fieldRepetition f | None => None end in
  let compText :=
    match textField t with Some f => fieldComp f | None => None end in
  let subText :=
    match compText with Some c => compSub c | None => None end in
  setOptional 6 (option_map subDigits subText)
    (setOptional 5 (option_map compDigits compText)
       (setOptional 4 repetitionText
          (setOptional 3 (option_map fieldDigits (textField t))
             (setOptional 2 (textIndex t)
                (setCapture 1 (textSegment t) noCaptures))))).

(** The five integer fields of a path are values of a non-negative
    [int]. *)
Definition fitsInt (path : HL7Path) : Prop :=
  0 <= SegmentIndex path <= maxInt /\ 0 <= Field path <= maxInt
  /\ 0 <= RepetitionIndex path <= maxInt /\ 0 <= Component path <= maxInt
  /\ 0 <= Subcomponent path <= maxInt.

(** The messages of the errors [Validate] returns. *)
Definition validateErrors : list string :=
  [ "if Segment is empty, the rest of the path must be empty or 0";
    "if Segment is MSH, SegmentIndex must be 1";
    "if Segment is MSH and Field is 1, the rest of the path must be empty or 0";
    "if RepetitionIndex is set, Field must be set";
    "if Field is set, RepetitionIndex must be at least 1";
    "if Component is set, Field must be set";
    "if Subcomponent is set, Component must be set" ].

(** ** cmd/hl7Parser/main.go *)

Module Main.

Definition message : string :=
  "MSH|^~\&|SendingApp|SendingFac|ReceivingApp|ReceivingFac|20240101120000||ADT^A01|123|P|2.5"
  ++ String CR "PID|1||PatientID|||Doe^John".

(** [hl7.HL7Path{Segment: "PID", SegmentIndex: 1, Field: 5, Component: 2}]:
    the fields not named are zero. *)
Definition path : HL7Path := mkPath "PID" 1 5 0 2 0.

(** What [main] prints; [None] when it panics. *)
Definition main : option string :=
  match AbstractHL7 message path with
  | Return result None => Some ("Result: " ++ result ++ String LF "")
  | Return _ (Some err) => Some ("Error: " ++ err ++ String LF "")
  | _ => None
  end.

End Main.

(** The lines of a text in one pass: a line ends at each line feed,
    which is dropped, and after each carriage return, which stays at the
    end of its line. *)
Fixpoint linesKeepingCR (s : string) : list string :=
  match s with
  | EmptyString => [EmptyString]
  | String c rest =>
      if Ascii.eqb c LF then EmptyString :: linesKeepingCR rest
      else if Ascii.eqb c CR then String CR EmptyString :: linesKeepingCR rest
      else match linesKeepingCR rest with
           | line :: more => String c line :: more
           | [] => [String c EmptyString]
           end
  end.

(** A segment text: no carriage return and no line feed in it. *)
Definition oneLine (s : string) : bool := avoids CR s && avoids LF s.

(** [part] stands somewhere in [whole], in one piece. *)
Definition partOf (part whole : string) : Prop :=
  exists before after, whole = before ++ part ++ after.

(** The byte is its own encoding: its value is below 0x80. *)
Definition isASCII (b : ascii) : Prop := (N_of_ascii b < 128)%N.

(** The path with its component, or its subcomponent, set anew. *)
Definition withComponent (path : HL7Path) (component : Z) : HL7Path :=
  mkPath (Segment path) (SegmentIndex path) (Field path)
    (RepetitionIndex path) component (Subcomponent path).

Definition withSubcomponent (path : HL7Path) (subcomponent : Z) : HL7Path :=
  mkPath (Segment path) (SegmentIndex path) (Field path)
    (RepetitionIndex path) (Component path) subcomponent.

(** Element number [i] of a list of texts, counted from 1; the empty
    text out of range. *)
Definition pieceAt (pieces : list string) (i : Z) : string :=
  match lookup1 pieces i with
  | Some piece => piece
  | None => ""
  end.

(** The continuation accepts the end of the text only. *)
Definition endOnly {R : Type} (k : string -> captures -> option R) : Prop :=
  forall c r caps, k (String c r) caps = None.

(** The messages of the errors [parseSegmentNameOrError] returns. *)
Definition segmentNameErrors : list string :=
  [ "segment name must be 3 characters";
    "segment name must begin with an uppercase letter";
    "segment name must be uppercase alphanumeric" ].

Module TestCases.
Import Tests.

(** TestParsePath *)
Example full_path :
  ParsePath "PID[2]-3[4].5.6" = (mkPath "PID" 2 3 4 5 6, None).
Proof. vm_compute. reflexivity. Qed.

Example missing_indices :
  ParsePath "PV1-3.4" = (mkPath "PV1" 1 3 1 4 0, None).
Proof. vm_compute. reflexivity. Qed.

(** TestParseSegmentNameOrError *)
Example segment_names :
  map parseSegmentNameOrError ["PID"; "INVALID"; "123"; "PV_"]
  = [ ("PID", None);
      ("", Some "segment name must be 3 characters");
      ("", Some "segment name must begin with an uppercase letter");
      ("", Some "segment name must be uppercase alphanumeric") ].
Proof. vm_compute. reflexivity. Qed.

(** TestAbstractHL7 *)
Example abstract_values :
  map (query message)
    [ "MSH.1"; "MSH.2"; "MSH.3"; "MSH[1].1"; "PID.3"; "PID.3[2]"; "PID-3.1";
      "PID-3.5"; "PID-3[2].1"; "PID-3[2].5"; "OBX[1].1"; "OBX[2].1";
      "OBX[3].1"; "ZZZ-2.1"; "ZZZ-2[2].2.2" ]
  = map (fun v => Return v None)
    [ "|"; "^~\&"; "HIS"; "|"; "555-44-4444^^^^SSN"; "123^^^^MRN";
      "555-44-4444"; "SSN"; "123"; "MRN"; "1"; "2"; ""; "This is"; "segment" ].
Proof. vm_compute. reflexivity. Qed.

Example abstract_whole_message : query message "" = Return message None.
Proof. vm_compute. reflexivity. Qed.

Example abstract_second_header :
  query message "MSH[2].1"
  = Return "" (Some "if Segment is MSH, SegmentIndex must be 1").
Proof. vm_compute. reflexivity. Qed.

End TestCases.

(** * Properties *)

(** ** Facts about the Go primitives *)

Lemma neqb_true (a b : Z) : (a !=? b) = true <-> a <> b.
Proof.
  unfold neqb. destruct (Z.eqb_spec a b); simpl; split; congruence.
Qed.

Lemma splitFrom_not_nil (sep s : string) (skip : nat) :
  splitFrom sep skip s <> [].
Proof.
  revert skip. induction s as [|c s IH]; intros skip; cbn [splitFrom].
  - discriminate.
  - destruct skip as [|k].
    + destruct (String.prefix sep (String c s)); [discriminate|].
      destruct (splitFrom sep 0 s); discriminate.
    + apply IH.
Qed.

Lemma Split_len_pos (s sep : string) : 1 <= GoSlices.len (Split s sep).
Proof.
  unfold Split, GoSlices.len.
  pose proof (splitFrom_not_nil sep s 0) as H.
  destruct (splitFrom sep 0 s); [congruence | simpl; lia].
Qed.

Lemma index_in_range {A : Type} (l : list A) (i : Z) :
  0 <= i < GoSlices.len l -> exists x, GoSlices.index l i = Some x.
Proof.
  unfold GoSlices.index, GoSlices.len. intros [Hlo Hhi].
  destruct (Z.ltb_spec i 0); [lia|].
  destruct (nth_error l (Z.to_nat i)) eqn:E; [eauto|].
  apply nth_error_None in E. lia.
Qed.

Lemma index_some_range {A : Type} (l : list A) (i : Z) (x : A) :
  GoSlices.index l i = Some x -> 0 <= i < GoSlices.len l.
Proof.
  unfold GoSlices.index, GoSlices.len.
  destruct (Z.ltb_spec i 0); [discriminate|]. intros E.
  assert (Z.to_nat i < List.length l)%nat by (apply nth_error_Some; congruence).
  lia.
Qed.

Lemma index_none_range {A : Type} (l : list A) (i : Z) :
  GoSlices.index l i = None -> i < 0 \/ GoSlices.len l <= i.
Proof.
  intros E. destruct (Z_lt_dec i 0); [now left|right].
  destruct (Z_lt_dec i (GoSlices.len l)); [|lia].
  destruct (index_in_range l i) as [x Hx]; [lia|congruence].
Qed.

(** ** Whole-message selection *)

(** C2: for every message string [m], whatever its content or length,
    [AbstractHL7] applied to [m] and the zero-value path returns [m]
    unchanged with a nil error; no header or delimiter check is run. *)
Theorem AbstractHL7_zero_path_identity :
  forall m : string, AbstractHL7 m zeroPath = Return m None.
Proof. intros m. reflexivity. Qed.

(** ** Validation comes first *)

(** C8: a path that fails validation gets the validator's error from
    [AbstractHL7] whatever the message is: for any two messages the two
    results are that same error. *)
Theorem AbstractHL7_invalid_path_any_message :
  forall (path : HL7Path) (err : string),
    Validate path = Some err ->
    forall m1 m2 : string,
      AbstractHL7 m1 path = Return "" (Some err)
      /\ AbstractHL7 m2 path = Return "" (Some err).
Proof.
  intros path err H m1 m2. unfold AbstractHL7. rewrite H. split; reflexivity.
Qed.

Lemma AbstractHL7_invalid_path_any_message_witness :
  Validate (mkPath "MSH" 2 1 1 0 0)
    = Some "if Segment is MSH, SegmentIndex must be 1"
  /\ fst (ParsePath "MSH[2].1") = mkPath "MSH" 2 1 1 0 0
  /\ AbstractHL7 Tests.message (mkPath "MSH" 2 1 1 0 0)
     = Return "" (Some "if Segment is MSH, SegmentIndex must be 1")
  /\ AbstractHL7 "" (mkPath "MSH" 2 1 1 0 0)
     = Return "" (Some "if Segment is MSH, SegmentIndex must be 1").
Proof.
  split; [reflexivity|]. split; [vm_compute; reflexivity|].
  apply (AbstractHL7_invalid_path_any_message (mkPath "MSH" 2 1 1 0 0)).
  reflexivity.
Defined.

(** ** Numbers too large for an [int] *)

(** X6: a run of decimal digits whose value is beyond the largest
    [int] is read as the default, whatever the default is. *)
Lemma parseIntOrDefault_out_of_range (s : string) (v defaultVal : Z) :
  decimalFrom 0 s = Some v -> maxInt < v ->
  parseIntOrDefault s defaultVal = defaultVal.
Proof.
  intros Hv Hbig. unfold parseIntOrDefault, Sscanf_d.
  destruct s as [|c s]; [reflexivity|].
  cbn [String.eqb]. rewrite Hv.
  destruct (Z.leb_spec v maxInt); [lia | reflexivity].
Qed.

(** C10: there is a well-formed path text, [PID[99999999999999999999]],
    whose segment index is a run of digits beyond the range of an [int]
    and on which [ParsePath] succeeds with a nil error and SegmentIndex
    1, the default of that position, in place of the number written. *)
Theorem ParsePath_out_of_range_index_defaults :
  ParsePath "PID[99999999999999999999]" = (mkPath "PID" 1 0 0 0 0, None)
  /\ decimalFrom 0 "99999999999999999999" = Some 99999999999999999999
  /\ maxInt < 99999999999999999999.
Proof.
  split; [vm_compute; reflexivity|].
  split; [vm_compute; reflexivity|].
  unfold maxInt. lia.
Qed.

(** ** Segmentation *)

(** C3 (evaluation of the code where it departs from the claim): the
    same two segment texts joined by LF, by CR and by CR LF give three
    different segment lists: only LF gives the texts back, CR leaves a
    carriage return at the end of the first segment, and CR LF leaves
    that and an empty segment besides; the value at path MSH.3 differs
    accordingly. *)
Theorem segmentsOf_differs_by_terminator :
  segmentsOf (joinLines (String LF "") twoSegments) = ["MSH|^~\&|A"; "PID|1"]
  /\ segmentsOf (joinLines (String CR "") twoSegments)
     = [endingInCR "MSH|^~\&|A"; "PID|1"]
  /\ segmentsOf (joinLines CRLF twoSegments)
     = [endingInCR "MSH|^~\&|A"; ""; "PID|1"]
  /\ AbstractHL7 (joinLines (String LF "") twoSegments) (mkPath "MSH" 1 3 1 0 0)
     = Return "A" None
  /\ AbstractHL7 (joinLines (String CR "") twoSegments) (mkPath "MSH" 1 3 1 0 0)
     = Return (endingInCR "A") None
  /\ AbstractHL7 (joinLines CRLF twoSegments) (mkPath "MSH" 1 3 1 0 0)
     = Return (endingInCR "A") None.
Proof. repeat split; vm_compute; reflexivity. Qed.

(** ** Bytes and slices of a message *)

Lemma HL7Path_eqb_eq (p q : HL7Path) : HL7Path_eqb p q = true <-> p = q.
Proof.
  unfold HL7Path_eqb. destruct p, q; cbn [Segment SegmentIndex Field
    RepetitionIndex Component Subcomponent].
  rewrite !andb_true_iff, String.eqb_eq, !Z.eqb_eq.
  split.
  - intros [[[[[-> ->] ->] ->] ->] ->]. reflexivity.
  - intros E. injection E as -> -> -> -> -> ->. repeat split.
Qed.

Lemma HL7Path_eqb_neq (p q : HL7Path) : p <> q -> HL7Path_eqb p q = false.
Proof.
  intros H. destruct (HL7Path_eqb p q) eqn:E; [|reflexivity].
  apply HL7Path_eqb_eq in E. contradiction.
Qed.

Lemma get_lt (s : string) (n : nat) :
  (n < String.length s)%nat -> exists c, String.get n s = Some c.
Proof.
  revert n. induction s as [|c s IH]; intros n H; simpl in *; [lia|].
  destruct n as [|n]; [eauto|]. apply IH. lia.
Qed.

Lemma get_some_lt (s : string) (n : nat) (c : ascii) :
  String.get n s = Some c -> (n < String.length s)%nat.
Proof.
  revert n. induction s as [|a s IH]; intros n H; simpl in *; [discriminate|].
  destruct n as [|n]; [lia|]. apply IH in H. lia.
Qed.

Lemma str_index_in_range (s : string) (i : Z) :
  0 <= i < len s -> exists c, index s i = Some c.
Proof.
  unfold index, len. intros [Hlo Hhi].
  destruct (Z.ltb_spec i 0); [lia|]. apply get_lt. lia.
Qed.

Lemma str_index_some_range (s : string) (i : Z) (c : ascii) :
  index s i = Some c -> 0 <= i < len s.
Proof.
  unfold index, len. destruct (Z.ltb_spec i 0); [discriminate|].
  intros E. apply get_some_lt in E. lia.
Qed.

Lemma slice_some (s : string) (lo hi : Z) (t : string) :
  slice s lo hi = Some t -> 0 <= lo /\ lo <= hi /\ hi <= len s.
Proof.
  unfold slice.
  destruct (Z.leb_spec 0 lo), (Z.leb_spec lo hi), (Z.leb_spec hi (len s));
    simpl; intros E; try discriminate; lia.
Qed.

(** A message that begins with MSH and holds a delimiter block passes
    lines 33-42. *)
Lemma readSeparators_block (m block : string) (fs : ascii) :
  slice m 0 3 = Some "MSH" -> slice m 3 10 = Some block ->
  index block 0 = Some fs ->
  readSeparators m = Next (block, fs).
Proof.
  intros H3 H10 Hfs. unfold readSeparators.
  pose proof (slice_some _ _ _ _ H3) as R3.
  pose proof (slice_some _ _ _ _ H10) as R10.
  destruct (Z.ltb_spec (len m) 3); [lia|].
  rewrite H3. cbn [orPanic bind String.eqb Ascii.eqb Bool.eqb negb].
  destruct (Z.ltb_spec (len m) 10); [lia|].
  rewrite H10. cbn [orPanic bind]. rewrite Hfs. reflexivity.
Qed.

(** ** Segment selection *)

Lemma prefix_iff_append (name s : string) :
  String.prefix name s = true <-> exists rest, s = name ++ rest.
Proof.
  revert s. induction name as [|a name IH]; intros s.
  - destruct s; simpl; split; eauto.
  - destruct s as [|b s]; simpl.
    + split; [discriminate | intros [rest E]; discriminate].
    + destruct (ascii_dec a b) as [->|N].
      * rewrite IH. split; intros [rest E]; exists rest; congruence.
      * split; [discriminate | intros [rest E]; congruence].
Qed.

Lemma scanSegments_from (d : Delimiters) (path : HL7Path)
    (segments : list string) (count : Z) :
  scanSegments d path count segments
  = match (if count <? SegmentIndex path
           then nth_error (matching (Segment path) segments)
                  (Z.to_nat (SegmentIndex path - count - 1))
           else None) with
    | Some segment => extractFrom d path segment
    | None => Return "" None
    end.
Proof.
  revert count. induction segments as [|segment rest IH]; intros count.
  - cbn [scanSegments matching filter].
    destruct (count <? SegmentIndex path); [|reflexivity].
    destruct (Z.to_nat (SegmentIndex path - count - 1)); reflexivity.
  - cbn [scanSegments matching filter]. unfold matchesName at 1.
    destruct (HasPrefix segment (Segment path)).
    + cbv zeta. rewrite IH. fold (matching (Segment path) rest).
      destruct (Z.eqb_spec (count + 1) (SegmentIndex path)) as [E|N].
      * destruct (Z.ltb_spec count (SegmentIndex path)); [|lia].
        replace (SegmentIndex path - count - 1) with 0 by lia. reflexivity.
      * destruct (Z.ltb_spec (count + 1) (SegmentIndex path)),
                 (Z.ltb_spec count (SegmentIndex path)); try lia; [|reflexivity].
        replace (Z.to_nat (SegmentIndex path - count - 1))
          with (S (Z.to_nat (SegmentIndex path - (count + 1) - 1))) by lia.
        reflexivity.
    + rewrite IH. reflexivity.
Qed.

(** The loop returns what is extracted from the target segment. *)
Lemma scanSegments_target (d : Delimiters) (path : HL7Path)
    (segments : list string) :
  scanSegments d path 0 segments
  = match targetSegment path segments with
    | Some segment => extractFrom d path segment
    | None => Return "" None
    end.
Proof.
  rewrite scanSegments_from. unfold targetSegment.
  replace (SegmentIndex path - 0 - 1) with (SegmentIndex path - 1) by lia.
  destruct (Z.ltb_spec 0 (SegmentIndex path)),
           (Z.leb_spec 1 (SegmentIndex path)); try lia; reflexivity.
Qed.

(** The target, said with the running count: [segment] is where the
    count of matches first equals the segment index. *)
Lemma targetSegment_running_count (path : HL7Path) (segments : list string)
    (segment : string) :
  targetSegment path segments = Some segment
  <-> exists before after,
        segments = (before ++ segment :: after)%list
        /\ matchesName (Segment path) segment = true
        /\ matchCount (Segment path) (before ++ [segment]) = SegmentIndex path.
Proof.
  unfold targetSegment, matchCount, GoSlices.len.
  set (name := Segment path). set (k := SegmentIndex path). clearbody name k.
  revert k. induction segments as [|s rest IH]; intros k.
  - split.
    + destruct (1 <=? k); [|discriminate].
      unfold matching. simpl. destruct (Z.to_nat (k - 1)); discriminate.
    + intros (before & after & E & _). destruct before; discriminate.
  - unfold matching in *. cbn [filter].
    destruct (matchesName name s) eqn:M.
    + destruct (Z.leb_spec 1 k) as [Hk|Hk].
      * destruct (Z.eq_dec k 1) as [->|N].
        -- cbn [Z.sub Z.to_nat Z.add Z.opp Z.pos_sub nth_error]. split.
           ++ intros E. injection E as <-. exists [], rest.
              cbn [app filter]. rewrite M. repeat split.
           ++ intros (before & after & E & Hm & Hc).
              destruct before as [|b before].
              ** cbn [app] in E. injection E as -> ->. reflexivity.
              ** cbn [app] in E. injection E as <- ->.
                 cbn [app filter] in Hc. rewrite M in Hc.
                 rewrite filter_app in Hc. cbn [filter] in Hc. rewrite Hm in Hc.
                 cbn [List.length] in Hc. rewrite length_app in Hc.
                 cbn [List.length] in Hc. lia.
        -- replace (Z.to_nat (k - 1)) with (S (Z.to_nat (k - 1 - 1))) by lia.
           cbn [nth_error]. specialize (IH (k - 1)).
           destruct (Z.leb_spec 1 (k - 1)); [|lia]. rewrite IH. split.
           ++ intros (before & after & -> & Hm & Hc).
              exists (s :: before), after. cbn [app filter]. rewrite M.
              cbn [List.length]. repeat split; [exact Hm | lia].
           ++ intros (before & after & E & Hm & Hc).
              destruct before as [|b before].
              ** cbn [app filter] in Hc. rewrite Hm in Hc.
                 cbn [List.length] in Hc. lia.
              ** cbn [app] in E. injection E as <- ->.
                 exists before, after. cbn [app filter] in Hc. rewrite M in Hc.
                 cbn [List.length] in Hc. repeat split; [exact Hm | lia].
      * split; [discriminate|].
        intros (before & after & E & Hm & Hc).
        destruct before as [|b before]; cbn [app filter] in Hc.
        -- rewrite Hm in Hc. cbn [List.length] in Hc. lia.
        -- cbn [app] in E. injection E as <- ->. rewrite M in Hc.
           cbn [List.length] in Hc. lia.
    + rewrite IH. split.
      * intros (before & after & -> & Hm & Hc).
        exists (s :: before), after. cbn [app filter]. rewrite M.
        repeat split; assumption.
      * intros (before & after & E & Hm & Hc).
        destruct before as [|b before].
        -- cbn [app] in E. injection E as -> ->. congruence.
        -- cbn [app] in E. injection E as <- ->.
           exists before, after. cbn [app filter] in Hc. rewrite M in Hc.
           repeat split; assumption.
Qed.

(** C7: a segment matches the path's segment name exactly when its text
    starts with the name, so a segment that begins PIDX matches PID; and
    the loop over the segments returns what is extracted from the
    segment at which the running count of matches, in message order,
    first equals [SegmentIndex], or the empty string when there is no
    such segment. *)
Theorem scanSegments_selects_target :
  (forall name segment : string,
      HasPrefix segment name = true <-> exists rest, segment = name ++ rest)
  /\ HasPrefix "PIDX|1" "PID" = true
  /\ (forall (d : Delimiters) (path : HL7Path) (segments : list string),
        scanSegments d path 0 segments
        = match targetSegment path segments with
          | Some segment => extractFrom d path segment
          | None => Return "" None
          end)
  /\ (forall (path : HL7Path) (segments : list string) (segment : string),
        targetSegment path segments = Some segment
        <-> exists before after,
              segments = (before ++ segment :: after)%list
              /\ HasPrefix segment (Segment path) = true
              /\ GoSlices.len (filter (fun s => HasPrefix s (Segment path))
                                 (before ++ [segment]))
                 = SegmentIndex path).
Proof.
  split; [intros; apply prefix_iff_append|].
  split; [reflexivity|].
  split.
  - intros. apply scanSegments_target.
  - intros. apply targetSegment_running_count.
Qed.

(** ** Every index is in bounds *)

Lemma length_substring (s : string) (n k : nat) :
  (n + k <= String.length s)%nat -> String.length (String.substring n k s) = k.
Proof.
  revert n k. induction s as [|c s IH]; intros n k H; simpl in H.
  - assert (n = 0%nat) as -> by lia. assert (k = 0%nat) as -> by lia. reflexivity.
  - destruct n as [|n]; simpl.
    + destruct k as [|k]; [reflexivity|]. simpl. rewrite IH; [reflexivity|lia].
    + apply IH. lia.
Qed.

Lemma slice_in_range (s : string) (lo hi : Z) :
  0 <= lo -> lo <= hi -> hi <= len s ->
  exists t, slice s lo hi = Some t /\ len t = hi - lo.
Proof.
  intros H1 H2 H3. unfold slice.
  destruct (Z.leb_spec 0 lo), (Z.leb_spec lo hi), (Z.leb_spec hi (len s));
    try lia.
  eexists. split; [reflexivity|]. unfold len in *.
  rewrite length_substring; lia.
Qed.

(** Lines 33-42 never panic: the message is refused, or its delimiter
    block of seven characters is read. *)
Lemma readSeparators_total (m : string) :
  (exists e, readSeparators m = Return "" (Some e))
  \/ (exists block fs, readSeparators m = Next (block, fs) /\ len block = 7).
Proof.
  unfold readSeparators.
  destruct (Z.ltb_spec (len m) 3); [left; eauto|].
  destruct (slice_in_range m 0 3) as (head & -> & _); try lia.
  cbn [orPanic bind].
  destruct (negb (head =? "MSH")%string); [left; eauto|].
  destruct (Z.ltb_spec (len m) 10); [left; eauto|].
  destruct (slice_in_range m 3 10) as (block & -> & Hlen); try lia.
  cbn [orPanic bind].
  destruct (str_index_in_range block 0) as [fs ->]; [lia|].
  right. exists block, fs. split; [reflexivity | lia].
Qed.

(** Lines 47-78 never panic on a block of seven characters. *)
Lemma checkSeparators_total (block : string) (fs : ascii) :
  len block = 7 ->
  (exists e, checkSeparators block fs = Return "" (Some e))
  \/ (exists d, checkSeparators block fs = Next d).
Proof.
  intros Hlen. unfold checkSeparators.
  destruct (str_index_in_range block 1) as [c1 ->]; [lia|].
  destruct (str_index_in_range block 2) as [c2 ->]; [lia|].
  destruct (str_index_in_range block 3) as [c3 ->]; [lia|].
  destruct (str_index_in_range block 4) as [c4 ->]; [lia|].
  destruct (str_index_in_range block 5) as [c5 ->]; [lia|].
  destruct (str_index_in_range block 6) as [c6 ->]; [lia|].
  cbn [orPanic bind].
  destruct (Ascii.eqb c1 fs); [left; eauto|].
  destruct (Ascii.eqb c2 fs); [left; eauto|].
  destruct (Ascii.eqb c3 fs); [left; eauto|].
  destruct (Ascii.eqb c4 fs); [left; eauto|].
  destruct (Ascii.eqb c5 fs); cbn [negb bind].
  - destruct (repeatedIn _ _); [left; eauto | right; eauto].
  - destruct (Ascii.eqb c6 fs); cbn [negb]; [|left; eauto].
    destruct (repeatedIn _ _); [left; eauto | right; eauto].
Qed.

(** Lines 101-107 never panic: [strings.Split] gives at least one field. *)
Lemma fieldList_total (d : Delimiters) (path : HL7Path) (segment : string) :
  exists fields, fieldList d path segment = Next fields.
Proof.
  unfold fieldList. destruct (isMSH path); [|eauto].
  pose proof (Split_len_pos segment (string_of_byte (fieldSeparator d))) as H.
  unfold GoSlices.upto, GoSlices.from.
  destruct (Z.leb_spec 1 (GoSlices.len (Split segment (string_of_byte (fieldSeparator d)))));
    [|lia].
  cbn [Z.leb Z.compare andb orPanic bind]. eauto.
Qed.

(** What the validator grants about an accepted path with a segment. *)
Lemma Validate_accepted (path : HL7Path) :
  Validate path = None ->
  (Segment path = "" -> path = zeroPath)
  /\ (Field path <> 0 -> RepetitionIndex path <> 0).
Proof.
  unfold Validate. intros H. split.
  - intros E. destruct path as [seg i f r c s]. cbn in *. subst seg.
    cbn in H.
    destruct (Z.eqb_spec i 0), (Z.eqb_spec f 0), (Z.eqb_spec r 0),
             (Z.eqb_spec c 0), (Z.eqb_spec s 0); unfold neqb in H;
      repeat match goal with
             | E : _ = 0 |- _ => rewrite E in *; clear E
             end; cbn in H; try discriminate;
      repeat match goal with
             | N : ?x <> 0 |- _ =>
                 apply Z.eqb_neq in N; rewrite N in H; cbn in H
             end; try discriminate.
    reflexivity.
  - intros Hf Hr.
    destruct (Segment path =? "")%string eqn:Es.
    + destruct (SegmentIndex path !=? 0); cbn [orb] in H; [discriminate|].
      apply neqb_true in Hf. rewrite Hf in H. discriminate.
    + destruct ((Segment path =? "MSH")%string && (SegmentIndex path !=? 1));
        [discriminate|].
      destruct ((Segment path =? "MSH")%string && (Field path =? 1)
                && ((Component path !=? 0) || (Subcomponent path !=? 0)));
        [discriminate|].
      apply neqb_true in Hf. rewrite Hf, Hr in H. cbn in H. discriminate.
Qed.

Lemma extractFrom_total (d : Delimiters) (path : HL7Path) (segment : string) :
  Validate path = None -> nonNegative path ->
  exists v err, extractFrom d path segment = Return v err.
Proof.
  intros Hv (_ & Hf & Hr & Hc & Hs).
  destruct (Validate_accepted path Hv) as [_ Hrep].
  unfold extractFrom.
  destruct (Z.eqb_spec (Field path) 0) as [|Nf]; [eauto|].
  destruct (fieldList_total d path segment) as [fields ->]. cbn [bind].
  rewrite Z.geb_leb.
  destruct (Z.leb_spec (GoSlices.len fields) (Field path)); [eauto|].
  destruct (index_in_range fields (Field path)) as [field ->]; [lia|].
  cbn [orPanic bind]. rewrite Z.gtb_ltb.
  destruct (Z.ltb_spec (GoSlices.len (repetitionList d path field))
              (RepetitionIndex path)); [eauto|].
  specialize (Hrep Nf).
  destruct (index_in_range (repetitionList d path field) (RepetitionIndex path - 1))
    as [repetition ->]; [lia|].
  cbn [orPanic bind].
  destruct (Z.eqb_spec (Component path) 0) as [|Nc]; [eauto|].
  rewrite Z.gtb_ltb.
  destruct (Z.ltb_spec (GoSlices.len (componentList d repetition))
              (Component path)); [eauto|].
  destruct (index_in_range (componentList d repetition) (Component path - 1))
    as [component ->]; [lia|].
  cbn [orPanic bind].
  destruct (Z.eqb_spec (Subcomponent path) 0) as [|Ns]; [eauto|].
  rewrite Z.gtb_ltb.
  destruct (Z.ltb_spec (GoSlices.len (subcomponentList d component))
              (Subcomponent path)); [eauto|].
  destruct (index_in_range (subcomponentList d component) (Subcomponent path - 1))
    as [subcomponent ->]; [lia|].
  cbn [orPanic bind]. eauto.
Qed.

Lemma scanSegments_total (d : Delimiters) (path : HL7Path)
    (segments : list string) (count : Z) :
  Validate path = None -> nonNegative path ->
  exists v err, scanSegments d path count segments = Return v err.
Proof.
  intros Hv Hn. rewrite scanSegments_from.
  destruct (if count <? SegmentIndex path then _ else None);
    [apply extractFrom_total; assumption | eauto].
Qed.

(** C9: for every message and every path that the validator accepts and
    whose five integer fields are not negative, [AbstractHL7] returns a
    pair of a string and an error: no slice of the message and no lookup
    in a list of fields, repetitions, components or subcomponents is out
    of bounds.  Without the bound on the sign this fails: the validator
    accepts a path with field -1, and [AbstractHL7] panics on it. *)
Theorem AbstractHL7_total :
  (forall (m : string) (path : HL7Path),
      nonNegative path -> Validate path = None ->
      exists v err, AbstractHL7 m path = Return v err)
  /\ (Validate negativeFieldPath = None
      /\ AbstractHL7 "MSH|^~\&|A" negativeFieldPath = Panic).
Proof.
  split; [|split; vm_compute; reflexivity].
  intros m path Hn Hv. unfold AbstractHL7. rewrite Hv.
  destruct (HL7Path_eqb path zeroPath); [eauto|].
  destruct (readSeparators_total m) as [[e ->] | (block & fs & -> & Hlen)];
    cbn [bind]; [eauto|].
  destruct (isMSH path && (Field path =? 1)); [eauto|].
  destruct (checkSeparators_total block fs Hlen) as [[e ->] | [d ->]];
    cbn [bind]; [eauto|].
  apply scanSegments_total; assumption.
Qed.

Lemma AbstractHL7_total_witness :
  nonNegative (mkPath "PID" 1 3 2 5 0)
  /\ Validate (mkPath "PID" 1 3 2 5 0) = None
  /\ exists v err, AbstractHL7 Tests.message (mkPath "PID" 1 3 2 5 0) = Return v err.
Proof.
  assert (Hn : nonNegative (mkPath "PID" 1 3 2 5 0))
    by (unfold nonNegative; simpl; lia).
  split; [exact Hn|]. split; [reflexivity|].
  apply (proj1 AbstractHL7_total Tests.message (mkPath "PID" 1 3 2 5 0) Hn).
  reflexivity.
Defined.

(** ** Absent data is not an error *)

Lemma geb_of_index_none {A : Type} (l : list A) (i : Z) :
  0 <= i -> GoSlices.index l i = None -> (i >=? GoSlices.len l) = true.
Proof.
  intros Hi E. apply index_none_range in E. rewrite Z.geb_leb.
  apply Z.leb_le. lia.
Qed.

Lemma geb_of_index_some {A : Type} (l : list A) (i : Z) (x : A) :
  GoSlices.index l i = Some x -> (i >=? GoSlices.len l) = false.
Proof.
  intros E. apply index_some_range in E. rewrite Z.geb_leb.
  apply Z.leb_gt. lia.
Qed.

Lemma gtb_of_lookup1_none {A : Type} (l : list A) (i : Z) :
  1 <= i -> lookup1 l i = None -> (i >? GoSlices.len l) = true.
Proof.
  unfold lookup1. intros Hi E. apply index_none_range in E.
  rewrite Z.gtb_ltb. apply Z.ltb_lt. lia.
Qed.

Lemma gtb_of_lookup1_some {A : Type} (l : list A) (i : Z) (x : A) :
  lookup1 l i = Some x -> (i >? GoSlices.len l) = false.
Proof.
  unfold lookup1. intros E. apply index_some_range in E.
  rewrite Z.gtb_ltb. apply Z.ltb_ge. lia.
Qed.

Lemma neq_eqb_false (a b : Z) : a <> b -> (a =? b) = false.
Proof. apply Z.eqb_neq. Qed.

(** C1, as the code has it: for every message that passes the header
    checks and every path that the validator accepts, that is not the
    zero value, that does not address MSH field 1, and whose Field,
    RepetitionIndex, Component and Subcomponent are not negative, when
    the addressed data is absent (no segment at which the count of
    matches equals SegmentIndex, or Field, RepetitionIndex, Component or
    Subcomponent beyond the list it selects from), [AbstractHL7] returns
    the empty string and a nil error. *)
Theorem AbstractHL7_absent_is_empty :
  forall (m : string) (d : Delimiters) (path : HL7Path),
    passesHeaderChecks m d ->
    Validate path = None ->
    path <> zeroPath ->
    isMSH path && (Field path =? 1) = false ->
    0 <= Field path -> 0 <= RepetitionIndex path ->
    0 <= Component path -> 0 <= Subcomponent path ->
    Absent d (segmentsOf m) path ->
    AbstractHL7 m path = Return "" None.
Proof.
  intros m d path (block & fs & Hread & Hcheck) Hv Hz Hmsh1 Hf Hr Hc Hs Habs.
  unfold AbstractHL7.
  rewrite Hv, (HL7Path_eqb_neq _ _ Hz), Hread. cbn [bind].
  rewrite Hmsh1, Hcheck. cbn [bind].
  rewrite scanSegments_target.
  destruct (Validate_accepted path Hv) as [_ Hrep].
  destruct Habs as
    [ Ht
    | segment fields Ht Nf Hfl Hfield
    | segment fields field Ht Nf Hfl Hfield Hrepn
    | segment fields field repetition Ht Nf Hfl Hfield Hrepn Nc Hcomp
    | segment fields field repetition component Ht Nf Hfl Hfield Hrepn Nc Hcomp
        Ns Hsub ];
    rewrite Ht; [reflexivity | | | |];
    unfold extractFrom; rewrite (neq_eqb_false _ _ Nf), Hfl; cbn [bind].
  - rewrite (geb_of_index_none _ _ Hf Hfield). reflexivity.
  - rewrite (geb_of_index_some _ _ _ Hfield), Hfield. cbn [orPanic bind].
    specialize (Hrep Nf).
    assert (Hr1 : 1 <= RepetitionIndex path) by lia.
    rewrite (gtb_of_lookup1_none _ _ Hr1 Hrepn). reflexivity.
  - rewrite (geb_of_index_some _ _ _ Hfield), Hfield. cbn [orPanic bind].
    rewrite (gtb_of_lookup1_some _ _ _ Hrepn).
    unfold lookup1 in Hrepn. rewrite Hrepn. cbn [orPanic bind].
    rewrite (neq_eqb_false _ _ Nc).
    assert (Hc1 : 1 <= Component path) by lia.
    rewrite (gtb_of_lookup1_none _ _ Hc1 Hcomp). reflexivity.
  - rewrite (geb_of_index_some _ _ _ Hfield), Hfield. cbn [orPanic bind].
    rewrite (gtb_of_lookup1_some _ _ _ Hrepn).
    pose proof Hrepn as Hrepn'. unfold lookup1 in Hrepn'. rewrite Hrepn'.
    cbn [orPanic bind]. rewrite (neq_eqb_false _ _ Nc).
    rewrite (gtb_of_lookup1_some _ _ _ Hcomp).
    pose proof Hcomp as Hcomp'. unfold lookup1 in Hcomp'. rewrite Hcomp'.
    cbn [orPanic bind]. rewrite (neq_eqb_false _ _ Ns).
    assert (Hs1 : 1 <= Subcomponent path) by lia.
    rewrite (gtb_of_lookup1_none _ _ Hs1 Hsub). reflexivity.
Qed.

Lemma shortMessage_passes : passesHeaderChecks shortMessage usualDelimiters.
Proof. exists "|^~\&|A", "|"%char. split; vm_compute; reflexivity. Qed.

Lemma AbstractHL7_absent_is_empty_witness :
  passesHeaderChecks shortMessage usualDelimiters
  /\ Validate (mkPath "PID" 1 2 1 3 0) = None
  /\ Absent usualDelimiters (segmentsOf shortMessage) (mkPath "PID" 1 2 1 3 0)
  /\ Absent usualDelimiters (segmentsOf shortMessage) (mkPath "OBX" 1 2 1 0 0)
  /\ AbstractHL7 shortMessage (mkPath "PID" 1 2 1 3 0) = Return "" None
  /\ AbstractHL7 shortMessage (mkPath "OBX" 1 2 1 0 0) = Return "" None.
Proof.
  assert (A1 : Absent usualDelimiters (segmentsOf shortMessage)
                 (mkPath "PID" 1 2 1 3 0)).
  { eapply (ComponentOutOfRange _ _ _ "PID|1|2" ["PID"; "1"; "2"] "2" "2");
      first [discriminate | vm_compute; reflexivity]. }
  assert (A2 : Absent usualDelimiters (segmentsOf shortMessage)
                 (mkPath "OBX" 1 2 1 0 0)).
  { apply SegmentNotFound. vm_compute. reflexivity. }
  split; [exact shortMessage_passes|]. split; [reflexivity|].
  split; [exact A1|]. split; [exact A2|]. split.
  - apply (AbstractHL7_absent_is_empty shortMessage usualDelimiters
             (mkPath "PID" 1 2 1 3 0) shortMessage_passes);
      first [reflexivity | discriminate | simpl; lia | exact A1].
  - apply (AbstractHL7_absent_is_empty shortMessage usualDelimiters
             (mkPath "OBX" 1 2 1 0 0) shortMessage_passes);
      first [reflexivity | discriminate | simpl; lia | exact A2].
Defined.

(** C1 as it is stated fails on three kinds of accepted path, each on a
    message that passes the header checks and with the addressed data
    absent: a negative field index makes [AbstractHL7] panic; a
    repetition of MSH field 1 beyond the only one gets the field
    separator; and the zero-value path gets the whole message. *)
Lemma AbstractHL7_absent_not_empty :
  passesHeaderChecks shortMessage usualDelimiters
  /\ (Validate (mkPath "PID" 1 (-1) 1 0 0) = None
      /\ Absent usualDelimiters (segmentsOf shortMessage) (mkPath "PID" 1 (-1) 1 0 0)
      /\ AbstractHL7 shortMessage (mkPath "PID" 1 (-1) 1 0 0) = Panic)
  /\ (Validate (mkPath "MSH" 1 1 2 0 0) = None
      /\ Absent usualDelimiters (segmentsOf shortMessage) (mkPath "MSH" 1 1 2 0 0)
      /\ AbstractHL7 shortMessage (mkPath "MSH" 1 1 2 0 0) = Return "|" None)
  /\ (Validate zeroPath = None
      /\ Absent usualDelimiters (segmentsOf shortMessage) zeroPath
      /\ AbstractHL7 shortMessage zeroPath = Return shortMessage None).
Proof.
  split; [exact shortMessage_passes|].
  split; [|split].
  - split; [reflexivity|]. split; [|vm_compute; reflexivity].
    eapply (FieldOutOfRange _ _ _ "PID|1|2" ["PID"; "1"; "2"]);
      first [discriminate | vm_compute; reflexivity].
  - split; [reflexivity|]. split; [|vm_compute; reflexivity].
    eapply (RepetitionOutOfRange _ _ _ "MSH|^~\&|A" ["MSH"; "|"; "^~\&"; "A"] "|");
      first [discriminate | vm_compute; reflexivity].
  - split; [reflexivity|]. split; [|reflexivity].
    apply SegmentNotFound. reflexivity.
Qed.

(** ** The header segment and its fields *)

Lemma prefix_other (a c : ascii) (sep' s : string) :
  Ascii.eqb c a = false -> String.prefix (String a sep') (String c s) = false.
Proof.
  intros N. cbn [String.prefix]. destruct (ascii_dec a c) as [->|_]; [|reflexivity].
  rewrite Ascii.eqb_refl in N. discriminate.
Qed.

Lemma replaceFrom_avoids (a : ascii) (old' new pre rest : string) :
  avoids a pre = true ->
  replaceFrom (String a old') new 0 (pre ++ rest)
  = pre ++ replaceFrom (String a old') new 0 rest.
Proof.
  induction pre as [|c pre IH]; intros H; [reflexivity|].
  cbn [avoids] in H. apply andb_true_iff in H as [Hc Hpre].
  apply negb_true_iff in Hc.
  cbn [String.append replaceFrom]. rewrite (prefix_other _ _ _ _ Hc).
  rewrite (IH Hpre). reflexivity.
Qed.

Lemma splitFrom_avoids (a : ascii) (sep' pre rest : string) :
  avoids a pre = true ->
  splitFrom (String a sep') 0 (pre ++ rest)
  = (pre ++ hd "" (splitFrom (String a sep') 0 rest))
      :: tl (splitFrom (String a sep') 0 rest).
Proof.
  induction pre as [|c pre IH]; intros H.
  - cbn [String.append].
    pose proof (splitFrom_not_nil (String a sep') rest 0) as N.
    destruct (splitFrom (String a sep') 0 rest); [congruence | reflexivity].
  - cbn [avoids] in H. apply andb_true_iff in H as [Hc Hpre].
    apply negb_true_iff in Hc.
    cbn [String.append splitFrom]. rewrite (prefix_other _ _ _ _ Hc).
    rewrite (IH Hpre). reflexivity.
Qed.

Lemma append_nil_r (s : string) : s ++ "" = s.
Proof. induction s as [|c s IH]; cbn; congruence. Qed.

Lemma prefix_nil (s : string) : String.prefix "" s = true.
Proof. destruct s; reflexivity. Qed.

(** A field ends at the next field separator. *)
Lemma Split_first_field (a : ascii) (pre rest : string) :
  avoids a pre = true ->
  Split (pre ++ String a rest) (String a "") = pre :: Split rest (String a "").
Proof.
  intros H. unfold Split. rewrite (splitFrom_avoids a "" pre _ H).
  cbn [splitFrom String.prefix]. destruct (ascii_dec a a); [|congruence].
  rewrite prefix_nil. cbn [hd tl String.length Nat.pred].
  rewrite append_nil_r. reflexivity.
Qed.

Lemma len_append (a b : string) : len (a ++ b) = len a + len b.
Proof.
  unfold len. induction a as [|c a IH]; cbn [String.append String.length]; lia.
Qed.

Lemma segmentsOf_unfold (m : string) :
  segmentsOf m
  = Split (ReplaceAll (ReplaceAll m (String CR "") CRLF) (String LF "") CRLF) CRLF.
Proof.
  unfold segmentsOf, splitByAnyOf.
  replace (GoSlices.SortFunc (fun a b => len b - len a)
             [CRLF; String CR ""; String LF ""])
    with [CRLF; String CR ""; String LF ""] by (vm_compute; reflexivity).
  reflexivity.
Qed.

(** The first segment of a message begins with the text before the
    first line terminator. *)
Lemma segmentsOf_first (pre rest : string) :
  avoids CR pre = true -> avoids LF pre = true ->
  exists h t, segmentsOf (pre ++ rest) = (pre ++ h) :: t.
Proof.
  intros Hcr Hlf. rewrite segmentsOf_unfold. unfold ReplaceAll, Split, CRLF.
  rewrite (replaceFrom_avoids CR "" _ pre rest Hcr).
  rewrite (replaceFrom_avoids LF "" _ pre _ Hlf).
  rewrite (splitFrom_avoids CR _ pre _ Hcr). eauto.
Qed.

Lemma readSeparators_exampleHeader (rest : string) :
  readSeparators (exampleHeader ++ rest) = Next ("|^~\&|H", "|"%char).
Proof.
  assert (L : len (exampleHeader ++ rest) = 17 + len rest)
    by (rewrite len_append; replace (len exampleHeader) with 17
          by (vm_compute; reflexivity); reflexivity).
  assert (0 <= len rest) by (unfold len; lia).
  apply readSeparators_block; [| |reflexivity]; unfold slice; rewrite L.
  - destruct (Z.leb_spec 3 (17 + len rest)); [reflexivity | lia].
  - destruct (Z.leb_spec 10 (17 + len rest)); [reflexivity | lia].
Qed.

Lemma fields_exampleHeader (h : string) :
  Split (exampleHeader ++ h) "|"
  = "MSH" :: "^~\&" :: "HIS" :: "RIH" :: Split h "|".
Proof.
  change (exampleHeader ++ h)
    with ("MSH" ++ String "|" ("^~\&" ++ String "|" ("HIS" ++ String "|"
            ("RIH" ++ String "|" h)))).
  rewrite !Split_first_field by reflexivity. reflexivity.
Qed.

Lemma upto_1_cons {A : Type} (x : A) (l : list A) :
  GoSlices.upto (x :: l) 1 = Some [x].
Proof.
  unfold GoSlices.upto, GoSlices.len. cbn [List.length].
  destruct (Z.leb_spec 1 (Z.of_nat (S (List.length l)))); [reflexivity | lia].
Qed.

Lemma from_1_cons {A : Type} (x : A) (l : list A) :
  GoSlices.from (x :: l) 1 = Some l.
Proof.
  unfold GoSlices.from, GoSlices.len. cbn [List.length].
  destruct (Z.leb_spec 1 (Z.of_nat (S (List.length l)))); [reflexivity | lia].
Qed.

(** For MSH the field separator is put in at index 1 of the fields. *)
Lemma fieldList_MSH (d : Delimiters) (path : HL7Path) (segment : string) :
  isMSH path = true ->
  fieldList d path segment
  = Next (firstn 1 (Split segment (string_of_byte (fieldSeparator d)))
          ++ string_of_byte (fieldSeparator d)
             :: skipn 1 (Split segment (string_of_byte (fieldSeparator d))))%list.
Proof.
  intros H. unfold fieldList. rewrite H. unfold Split.
  pose proof (splitFrom_not_nil (string_of_byte (fieldSeparator d)) segment 0) as N.
  destruct (splitFrom (string_of_byte (fieldSeparator d)) 0 segment) as [|x l];
    [congruence|].
  rewrite upto_1_cons, from_1_cons. reflexivity.
Qed.

(** MSH field 2 is its own only repetition. *)
Lemma repetitionList_MSH2 (d : Delimiters) (path : HL7Path) (field : string) :
  isMSH path = true -> Field path = 2 ->
  repetitionList d path field = [field].
Proof.
  intros H F. unfold repetitionList. rewrite H, F. reflexivity.
Qed.

Lemma extractFrom_exampleHeader (h : string) :
  extractFrom usualDelimiters (mkPath "MSH" 1 2 1 0 0) (exampleHeader ++ h)
  = Return "^~\&" None
  /\ extractFrom usualDelimiters (mkPath "MSH" 1 3 1 0 0) (exampleHeader ++ h)
     = Return "HIS" None.
Proof.
  split; unfold extractFrom; rewrite fieldList_MSH by reflexivity;
    cbn [Field RepetitionIndex Component Subcomponent Z.eqb bind];
    change (string_of_byte (fieldSeparator usualDelimiters)) with "|";
    rewrite fields_exampleHeader; cbn [firstn skipn app].
  - rewrite (geb_of_index_some _ 2 "^~\&") by reflexivity.
    change (GoSlices.index _ 2) with (Some "^~\&"). cbn [orPanic bind].
    reflexivity.
  - rewrite (geb_of_index_some _ 3 "HIS") by reflexivity.
    change (GoSlices.index _ 3) with (Some "HIS"). cbn [orPanic bind].
    reflexivity.
Qed.

Lemma checkSeparators_exampleHeader :
  checkSeparators "|^~\&|H" "|" = Next usualDelimiters.
Proof. vm_compute. reflexivity. Qed.

Lemma scanSegments_exampleHeader (path : HL7Path) (rest : string) :
  Segment path = "MSH" -> SegmentIndex path = 1 ->
  exists h,
    scanSegments usualDelimiters path 0 (segmentsOf (exampleHeader ++ rest))
    = extractFrom usualDelimiters path (exampleHeader ++ h).
Proof.
  intros Hs Hi.
  destruct (segmentsOf_first exampleHeader rest) as (h & t & ->);
    [reflexivity | reflexivity |].
  exists h. cbn [scanSegments]. rewrite Hs, Hi.
  change (HasPrefix (exampleHeader ++ h) "MSH") with true.
  reflexivity.
Qed.

(** C4: on every message that begins [MSH|^~\&|HIS|RIH|], path MSH.1
    yields the field separator [|], path MSH.2 yields the encoding
    characters [^~\&] whole, and path MSH.3 yields [HIS].  The field
    list of an MSH segment is the split of the segment with the field
    separator put in at index 1, and the repetition list of MSH field 2
    is the field alone, unsplit. *)
Theorem AbstractHL7_MSH_fields :
  (forall rest : string,
      AbstractHL7 (exampleHeader ++ rest) (mkPath "MSH" 1 1 1 0 0)
      = Return "|" None
      /\ AbstractHL7 (exampleHeader ++ rest) (mkPath "MSH" 1 2 1 0 0)
         = Return "^~\&" None
      /\ AbstractHL7 (exampleHeader ++ rest) (mkPath "MSH" 1 3 1 0 0)
         = Return "HIS" None)
  /\ map ParsePath ["MSH.1"; "MSH.2"; "MSH.3"]
     = [ (mkPath "MSH" 1 1 1 0 0, None); (mkPath "MSH" 1 2 1 0 0, None);
         (mkPath "MSH" 1 3 1 0 0, None) ]
  /\ (forall (d : Delimiters) (i f r c s : Z) (segment : string),
        fieldList d (mkPath "MSH" i f r c s) segment
        = Next (firstn 1 (Split segment (string_of_byte (fieldSeparator d)))
                ++ string_of_byte (fieldSeparator d)
                   :: skipn 1 (Split segment (string_of_byte (fieldSeparator d))))%list)
  /\ (forall (d : Delimiters) (i r c s : Z) (field : string),
        repetitionList d (mkPath "MSH" i 2 r c s) field = [field]).
Proof.
  split; [|split; [vm_compute; reflexivity|split]].
  - intros rest. unfold AbstractHL7.
    repeat match goal with
           | |- context [Validate ?p] =>
               replace (Validate p) with (@None string) by reflexivity
           | |- context [HL7Path_eqb ?p zeroPath] =>
               replace (HL7Path_eqb p zeroPath) with false by reflexivity
           end.
    rewrite readSeparators_exampleHeader. cbn [bind].
    split; [reflexivity|].
    cbn [isMSH Segment Field String.eqb Ascii.eqb Bool.eqb andb Z.eqb Pos.eqb].
    rewrite checkSeparators_exampleHeader. cbn [bind].
    split.
    + destruct (scanSegments_exampleHeader (mkPath "MSH" 1 2 1 0 0) rest)
        as [h ->]; [reflexivity | reflexivity |].
      apply extractFrom_exampleHeader.
    + destruct (scanSegments_exampleHeader (mkPath "MSH" 1 3 1 0 0) rest)
        as [h ->]; [reflexivity | reflexivity |].
      apply extractFrom_exampleHeader.
  - intros. apply fieldList_MSH. reflexivity.
  - intros. apply repetitionList_MSH2; reflexivity.
Qed.

(** ** Errors of the path parser *)

Lemma orElse_some {A : Type} (a b : option A) (x : A) :
  orElse a b = Some x -> a = Some x \/ b = Some x.
Proof. destruct a; simpl; intros H; [left | right]; assumption. Qed.

Lemma matchPlus_continues {R : Type} (p : ascii -> bool) (s : string)
    (k : string -> option R) (res : R) :
  matchPlus p s k = Some res -> exists s1, k s1 = Some res.
Proof.
  induction s as [|c s IH]; cbn [matchPlus]; [discriminate|].
  destruct (p c); [|discriminate].
  intros H. apply orElse_some in H as [H|H]; eauto.
Qed.

(** A successful match reaches its continuation, and leaves every
    capture group that is not in the pattern as it was. *)
Lemma matchRegex_continues {R : Type} (r : regex) :
  forall (s : string) (caps : captures)
         (k : string -> captures -> option R) (res : R),
    matchRegex r s caps k = Some res ->
    exists s1 caps1,
      k s1 caps1 = Some res
      /\ forall j, ~ In j (groupsOf r) -> caps1 j = caps j.
Proof.
  induction r as [p | r1 IH1 r2 IH2 | r1 IH1 | p | i r1 IH1];
    intros s caps k res H; cbn [matchRegex groupsOf] in *.
  - destruct s as [|c s]; [discriminate|]. destruct (p c); [|discriminate].
    eauto.
  - apply IH1 in H as (s1 & caps1 & H & F1).
    apply IH2 in H as (s2 & caps2 & H & F2).
    exists s2, caps2. split; [exact H|].
    intros j Hj. rewrite F2, F1; [reflexivity| |];
      intros Hin; apply Hj; apply in_or_app; tauto.
  - apply orElse_some in H as [H|H]; [apply IH1 in H; exact H | eauto].
  - apply matchPlus_continues in H as [s1 H]. eauto.
  - apply IH1 in H as (s1 & caps1 & H & F1).
    eexists _, _. split; [exact H|].
    intros j Hj. unfold setCapture.
    destruct (Nat.eqb_spec j i) as [->|N]; [exfalso; apply Hj; left; reflexivity|].
    apply F1. intros Hin. apply Hj. right. exact Hin.
Qed.

Lemma afterSegment_starts {R : Type} (k : string -> captures -> option R)
    (c : ascii) (r : string) (caps : captures) (res : R) :
  (forall c' r' caps', k (String c' r') caps' = None) ->
  matchRegex afterSegment (String c r) caps k = Some res ->
  c = "["%char \/ c = "-"%char \/ c = "."%char.
Proof.
  intros Hend. unfold afterSegment, bracketed, lit, sep.
  cbn [matchRegex].
  destruct (Ascii.eqb_spec "[" c) as [<-|N1]; [tauto|].
  cbn [orElse].
  destruct (Ascii.eqb_spec c "-") as [->|N2]; [tauto|].
  destruct (Ascii.eqb_spec c ".") as [->|N3]; [tauto|].
  cbn [orb orElse]. rewrite Hend. discriminate.
Qed.

Lemma consumed_three (c1 c2 c3 : ascii) (rest : string) :
  consumed (String c1 (String c2 (String c3 rest))) rest
  = String c1 (String c2 (String c3 "")).
Proof.
  unfold consumed. cbn [String.length].
  replace (S (S (S (String.length rest))) - String.length rest)%nat with 3%nat
    by lia.
  destruct rest; reflexivity.
Qed.

(** What a match of [pathExp] says about the text: three characters
    of the segment-name shape, then the end, a bracket, a hyphen or a
    dot; and capture group 1 is those three characters. *)
Lemma pathExp_match (s : string) (match_ : list string) :
  FindStringSubmatch pathExp 6 s = Some match_ ->
  exists c1 c2 c3 rest,
    s = String c1 (String c2 (String c3 rest))
    /\ upper c1 = true /\ upperOrDigit c2 = true /\ upperOrDigit c3 = true
    /\ (rest = "" \/ exists c r, rest = String c r
                      /\ (c = "["%char \/ c = "-"%char \/ c = "."%char))
    /\ group match_ 1 = String c1 (String c2 (String c3 "")).
Proof.
  unfold FindStringSubmatch, pathExp, segmentName. cbn [matchRegex].
  destruct s as [|c1 [|c2 [|c3 rest]]]; try discriminate;
    try (destruct (upper c1); discriminate);
    try (destruct (upper c1); [destruct (upperOrDigit c2)|]; discriminate).
  destruct (upper c1) eqn:U1; [|discriminate].
  destruct (upperOrDigit c2) eqn:U2; [|discriminate].
  destruct (upperOrDigit c3) eqn:U3; [|discriminate].
  rewrite consumed_three. intros H.
  exists c1, c2, c3, rest.
  split; [reflexivity|]. split; [exact U1|]. split; [exact U2|].
  split; [exact U3|]. split.
  - destruct rest as [|c r]; [now left | right].
    exists c, r. split; [reflexivity|].
    eapply afterSegment_starts; [|exact H]. reflexivity.
  - apply matchRegex_continues in H as (s1 & caps1 & H & F).
    destruct s1; [|discriminate]. injection H as <-.
    unfold group. cbn [seq map nth]. unfold setCapture at 1. cbn [Nat.eqb].
    rewrite F; [reflexivity|]. cbn. intuition discriminate.
Qed.

Lemma upperOrDigit_not_separator (c : ascii) :
  upperOrDigit c = true ->
  Ascii.eqb c "[" || Ascii.eqb c "-" || Ascii.eqb c "." = false.
Proof.
  intros H.
  destruct (Ascii.eqb_spec c "[") as [->|_]; [discriminate|].
  destruct (Ascii.eqb_spec c "-") as [->|_]; [discriminate|].
  destruct (Ascii.eqb_spec c ".") as [->|_]; [discriminate|].
  reflexivity.
Qed.

Lemma upper_upperOrDigit (c : ascii) : upper c = true -> upperOrDigit c = true.
Proof. unfold upperOrDigit. intros ->. reflexivity. Qed.

Lemma parseSegmentNameOrError_shape (c1 c2 c3 : ascii) :
  upper c1 = true -> upperOrDigit c2 = true -> upperOrDigit c3 = true ->
  parseSegmentNameOrError (String c1 (String c2 (String c3 "")))
  = (String c1 (String c2 (String c3 "")), None).
Proof.
  unfold parseSegmentNameOrError, upperOrDigit. intros U1 U2 U3.
  cbn [len String.length Z.of_nat neqb Z.eqb Pos.of_succ_nat Pos.succ Pos.eqb
       negb segmentNameLoop Nat.eqb].
  rewrite U1. cbn [negb].
  apply orb_true_iff in U2, U3.
  destruct (upper c2), (digit c2), (upper c3), (digit c3);
    cbn [negb andb]; try reflexivity; destruct U2, U3; discriminate.
Qed.

(** C6, as the code has it: a path text that is not empty and whose
    segment token breaks the shape of a segment name (so that
    [parseSegmentNameOrError] refuses the token with one of its three
    messages) does not match the anchored pattern, and the error of
    [ParsePath] is the one "invalid path format", not the message for
    the violation. *)
Theorem ParsePath_bad_segment_token :
  forall (s : string) (e : string),
    s <> "" ->
    snd (parseSegmentNameOrError (segmentToken s)) = Some e ->
    ParsePath s = (zeroPath, Some "invalid path format").
Proof.
  intros s e Hne Hbad. unfold ParsePath.
  destruct (String.eqb_spec s ""); [contradiction|].
  destruct (FindStringSubmatch pathExp 6 s) as [match_|] eqn:M; [|reflexivity].
  exfalso.
  apply pathExp_match in M as (c1 & c2 & c3 & rest & -> & U1 & U2 & U3 & Hrest & _).
  assert (T : segmentToken (String c1 (String c2 (String c3 rest)))
              = String c1 (String c2 (String c3 ""))).
  { cbn [segmentToken].
    rewrite (upperOrDigit_not_separator c1 (upper_upperOrDigit c1 U1)).
    rewrite (upperOrDigit_not_separator c2 U2).
    rewrite (upperOrDigit_not_separator c3 U3).
    destruct Hrest as [-> | (c & r & -> & Hc)]; [reflexivity|].
    cbn [segmentToken].
    destruct Hc as [-> | [-> | ->]]; reflexivity. }
  rewrite T, (parseSegmentNameOrError_shape c1 c2 c3 U1 U2 U3) in Hbad.
  discriminate.
Qed.

Lemma ParsePath_bad_segment_token_witness :
  snd (parseSegmentNameOrError (segmentToken "PIDX"))
    = Some "segment name must be 3 characters"
  /\ ParsePath "PIDX" = (zeroPath, Some "invalid path format").
Proof.
  split; [reflexivity|].
  apply (ParsePath_bad_segment_token "PIDX" "segment name must be 3 characters");
    [discriminate | reflexivity].
Defined.

(** X3: [ParsePath] has one error only, "invalid path format": the
    segment name that the pattern captured always has the shape
    [parseSegmentNameOrError] asks for, so none of the segment-name
    errors is ever returned. *)
Lemma ParsePath_only_error (s : string) (e : string) :
  snd (ParsePath s) = Some e -> e = "invalid path format".
Proof.
  unfold ParsePath. destruct (s =? "")%string; [discriminate|].
  destruct (FindStringSubmatch pathExp 6 s) as [match_|] eqn:M.
  - apply pathExp_match in M as (c1 & c2 & c3 & rest & _ & U1 & U2 & U3 & _ & ->).
    rewrite (parseSegmentNameOrError_shape c1 c2 c3 U1 U2 U3). discriminate.
  - cbn. congruence.
Qed.

(** C6 as it is stated fails: for each of the three kinds of violation
    there is a text whose token [parseSegmentNameOrError] refuses with
    its own message, while [ParsePath] reports "invalid path format". *)
Lemma ParsePath_generic_error_for_bad_segment :
  map (fun s => snd (parseSegmentNameOrError (segmentToken s)))
      ["1AB-2"; "PIDX"; "PV_"]
  = [ Some "segment name must begin with an uppercase letter";
      Some "segment name must be 3 characters";
      Some "segment name must be uppercase alphanumeric" ]
  /\ map ParsePath ["1AB-2"; "PIDX"; "PV_"]
     = [ (zeroPath, Some "invalid path format");
         (zeroPath, Some "invalid path format");
         (zeroPath, Some "invalid path format") ].
Proof. split; vm_compute; reflexivity. Qed.

(** * Further properties of the code *)

(** ** The path parser on the texts of its grammar *)

Lemma append_assoc (a b c : string) : (a ++ b) ++ c = a ++ (b ++ c).
Proof. induction a as [|x a IH]; cbn; congruence. Qed.

Lemma substring_append_left (a b : string) :
  String.substring 0 (String.length a) (a ++ b) = a.
Proof.
  induction a as [|x a IH]; cbn [String.length String.append String.substring].
  - destruct b; reflexivity.
  - rewrite IH. reflexivity.
Qed.

Lemma length_append (a b : string) :
  String.length (a ++ b) = (String.length a + String.length b)%nat.
Proof. induction a as [|x a IH]; cbn; congruence. Qed.

Lemma consumed_append (a b : string) : consumed (a ++ b) b = a.
Proof.
  unfold consumed. rewrite length_append.
  replace (String.length a + String.length b - String.length b)%nat
    with (String.length a) by lia.
  apply substring_append_left.
Qed.

Lemma matchPlus_stops {R : Type} (rest : string) (k : string -> option R) :
  noDigitAhead rest = true -> matchPlus digit rest k = None.
Proof.
  destruct rest as [|c r]; cbn; [reflexivity|].
  intros H. apply negb_true_iff in H. rewrite H. reflexivity.
Qed.

Lemma matchPlus_number {R : Type} (ds rest : string) (k : string -> option R)
    (res : R) :
  isNumber ds = true -> noDigitAhead rest = true ->
  k rest = Some res ->
  matchPlus digit (ds ++ rest) k = Some res.
Proof.
  unfold isNumber. intros H Hrest Hk.
  apply andb_true_iff in H as [Hne Hall].
  induction ds as [|c ds IH]; [discriminate|].
  cbn [allDigits] in Hall. apply andb_true_iff in Hall as [Hc Hall].
  cbn [String.append matchPlus]. rewrite Hc.
  destruct ds as [|c' ds'].
  - cbn [String.append]. rewrite (matchPlus_stops rest k Hrest). exact Hk.
  - rewrite IH; [reflexivity | reflexivity | exact Hall].
Qed.

Lemma capture_number {R : Type} (i : nat) (ds rest : string) (caps : captures)
    (k : string -> captures -> option R) (res : R) :
  isNumber ds = true -> noDigitAhead rest = true ->
  k rest (setCapture i ds caps) = Some res ->
  matchRegex (Capture i (Plus digit)) (ds ++ rest) caps k = Some res.
Proof.
  intros Hn Hrest Hk. cbn [matchRegex].
  apply matchPlus_number; [exact Hn | exact Hrest |].
  rewrite consumed_append. exact Hk.
Qed.

Lemma bracketed_optional {R : Type} (i : nat) (o : option string)
    (rest : string) (caps : captures) (k : string -> captures -> option R)
    (res : R) :
  optNumber o = true -> noBracketAhead rest = true ->
  k rest (setOptional i o caps) = Some res ->
  matchRegex (bracketed i) (renderBracket o ++ rest) caps k = Some res.
Proof.
  intros Hn Hrest Hk. unfold bracketed, lit.
  destruct o as [ds|]; cbn [renderBracket setOptional optNumber] in *.
  - cbn [String.append]. rewrite append_assoc.
    cbn [matchRegex Ascii.eqb Bool.eqb].
    change (matchPlus digit (ds ++ "]" ++ rest) ?f)
      with (matchPlus digit (ds ++ "]" ++ rest) f).
    rewrite (matchPlus_number ds ("]" ++ rest) _ res Hn); [reflexivity|reflexivity|].
    cbn [String.append Ascii.eqb Bool.eqb]. rewrite consumed_append. exact Hk.
  - cbn [String.append matchRegex].
    destruct rest as [|c r]; cbn [orElse]; [exact Hk|].
    cbn [noBracketAhead] in Hrest. apply negb_true_iff in Hrest.
    rewrite Hrest. exact Hk.
Qed.

Lemma isSep_not_digit (c : ascii) : isSep c = true -> digit c = false.
Proof.
  unfold isSep. intros H. apply orb_true_iff in H as [H|H];
    apply Ascii.eqb_eq in H; subst c; reflexivity.
Qed.

Lemma isSep_not_bracket (c : ascii) : isSep c = true -> Ascii.eqb "[" c = false.
Proof.
  unfold isSep. intros H. apply orb_true_iff in H as [H|H];
    apply Ascii.eqb_eq in H; subst c; reflexivity.
Qed.

Lemma opt_taken {R : Type} (r : regex) (s : string) (caps : captures)
    (k : string -> captures -> option R) (res : R) :
  matchRegex r s caps k = Some res -> matchRegex (Opt r) s caps k = Some res.
Proof. intros H. cbn [matchRegex]. rewrite H. reflexivity. Qed.

Lemma opt_at_end {R : Type} (r : regex) (caps : captures)
    (k : string -> captures -> option R) :
  matchRegex (Opt (Cat sep r)) "" caps k = k "" caps.
Proof. reflexivity. Qed.

Lemma sep_then {R : Type} (r : regex) (c : ascii) (s : string) (caps : captures)
    (k : string -> captures -> option R) :
  isSep c = true ->
  matchRegex (Cat sep r) (String c s) caps k = matchRegex r s caps k.
Proof.
  intros H. unfold sep. cbn [matchRegex]. fold (isSep c). rewrite H. reflexivity.
Qed.

Lemma number_then {R : Type} (i : nat) (r : regex) (ds rest : string)
    (caps : captures) (k : string -> captures -> option R) (res : R) :
  isNumber ds = true -> noDigitAhead rest = true ->
  matchRegex r rest (setCapture i ds caps) k = Some res ->
  matchRegex (Cat (Capture i (Plus digit)) r) (ds ++ rest) caps k = Some res.
Proof.
  intros Hn Hrest Hk.
  change (matchRegex (Capture i (Plus digit)) (ds ++ rest) caps
            (fun s1 caps1 => matchRegex r s1 caps1 k) = Some res).
  apply capture_number; assumption.
Qed.

Lemma subPart_text {R : Type} (o : option SubText) (caps : captures)
    (k : string -> captures -> option R) (res : R) :
  wellFormedSub o = true ->
  k "" (setOptional 6 (option_map subDigits o) caps) = Some res ->
  matchRegex subPart (renderSub o) caps k = Some res.
Proof.
  intros Hw Hk. unfold subPart.
  destruct o as [[c ds]|]; cbn [renderSub wellFormedSub subSep subDigits
    option_map setOptional] in *.
  - apply andb_true_iff in Hw as [Hc Hn].
    apply opt_taken. rewrite (sep_then _ _ _ _ _ Hc).
    rewrite <- (append_nil_r ds).
    apply capture_number; [exact Hn | reflexivity | exact Hk].
  - rewrite opt_at_end. exact Hk.
Qed.

Lemma renderSub_ahead (o : option SubText) :
  wellFormedSub o = true -> noDigitAhead (renderSub o) = true.
Proof.
  destruct o as [[c ds]|];
    cbn [renderSub wellFormedSub subSep noDigitAhead]; [|reflexivity].
  intros H. apply andb_true_iff in H as [Hc _].
  rewrite (isSep_not_digit c Hc). reflexivity.
Qed.

Lemma compPart_text {R : Type} (o : option CompText) (caps : captures)
    (k : string -> captures -> option R) (res : R) :
  wellFormedComp o = true ->
  k "" (setOptional 6
          (option_map subDigits
             (match o with Some c => compSub c | None => None end))
          (setOptional 5 (option_map compDigits o) caps)) = Some res ->
  matchRegex compPart (renderComp o) caps k = Some res.
Proof.
  intros Hw Hk. unfold compPart.
  destruct o as [[c ds sub]|]; cbn [renderComp wellFormedComp compSep compDigits
    compSub option_map setOptional] in *.
  - apply andb_true_iff in Hw as [Hw Hsub].
    apply andb_true_iff in Hw as [Hc Hn].
    apply opt_taken. rewrite (sep_then _ _ _ _ _ Hc).
    apply number_then; [exact Hn | apply renderSub_ahead; exact Hsub |].
    apply subPart_text; assumption.
  - rewrite opt_at_end. exact Hk.
Qed.

Lemma renderComp_ahead (o : option CompText) :
  wellFormedComp o = true ->
  noDigitAhead (renderComp o) = true /\ noBracketAhead (renderComp o) = true.
Proof.
  destruct o as [[c ds sub]|];
    cbn [renderComp wellFormedComp compSep noDigitAhead noBracketAhead];
    [|split; reflexivity].
  intros H. apply andb_true_iff in H as [H _].
  apply andb_true_iff in H as [Hc _].
  rewrite (isSep_not_digit c Hc), (isSep_not_bracket c Hc). split; reflexivity.
Qed.

Lemma renderBracket_ahead (o : option string) (rest : string) :
  noDigitAhead rest = true -> noDigitAhead (renderBracket o ++ rest) = true.
Proof. destruct o; cbn; [reflexivity | tauto]. Qed.

Lemma fieldPart_text {R : Type} (o : option FieldText) (caps : captures)
    (k : string -> captures -> option R) (res : R) :
  wellFormedField o = true ->
  k "" (let repetitionText :=
          match o with Some f => fieldRepetition f | None => None end in
        let compText :=
          match o with Some f => fieldComp f | None => None end in
        let subText :=
          match compText with Some c => compSub c | None => None end in
        setOptional 6 (option_map subDigits subText)
          (setOptional 5 (option_map compDigits compText)
             (setOptional 4 repetitionText
                (setOptional 3 (option_map fieldDigits o) caps)))) = Some res ->
  matchRegex fieldPart (renderField o) caps k = Some res.
Proof.
  intros Hw Hk. unfold fieldPart.
  destruct o as [[c ds rep comp]|]; cbn [renderField wellFormedField fieldSep
    fieldDigits fieldRepetition fieldComp option_map setOptional] in *.
  - apply andb_true_iff in Hw as [Hw Hcomp].
    apply andb_true_iff in Hw as [Hw Hrep].
    apply andb_true_iff in Hw as [Hc Hn].
    destruct (renderComp_ahead comp Hcomp) as [Hd Hb].
    apply opt_taken. rewrite (sep_then _ _ _ _ _ Hc).
    apply number_then; [exact Hn | apply renderBracket_ahead; exact Hd |].
    change (matchRegex (bracketed 4) (renderBracket rep ++ renderComp comp)
              (setCapture 3 ds caps)
              (fun s1 caps1 => matchRegex compPart s1 caps1 k) = Some res).
    apply bracketed_optional; [exact Hrep | exact Hb |].
    apply compPart_text; assumption.
  - rewrite opt_at_end. exact Hk.
Qed.

Lemma renderField_ahead (o : option FieldText) :
  wellFormedField o = true -> noBracketAhead (renderField o) = true.
Proof.
  destruct o as [[c ds rep comp]|];
    cbn [renderField wellFormedField fieldSep noBracketAhead]; [|reflexivity].
  intros H. apply andb_true_iff in H as [H _].
  apply andb_true_iff in H as [H _].
  apply andb_true_iff in H as [Hc _].
  rewrite (isSep_not_bracket c Hc). reflexivity.
Qed.

Lemma consumed_all (s : string) : consumed s "" = s.
Proof.
  rewrite <- (append_nil_r s) at 1. rewrite consumed_append. reflexivity.
Qed.

(** The match of a text of the grammar: the captures are its parts. *)
Lemma FindStringSubmatch_render (t : PathText) :
  wellFormed t = true ->
  FindStringSubmatch pathExp 6 (render t)
  = Some (map (setCapture 0 (render t) (capturesOfText t)) (seq 0 7)).
Proof.
  destruct t as [seg idx field]. unfold wellFormed, render.
  cbn [textSegment textIndex textField]. intros Hw.
  apply andb_true_iff in Hw as [Hw Hfield].
  apply andb_true_iff in Hw as [Hseg Hidx].
  destruct seg as [|c1 [|c2 [|c3 [|]]]]; try discriminate.
  cbn [isSegmentName] in Hseg.
  apply andb_true_iff in Hseg as [Hseg U3].
  apply andb_true_iff in Hseg as [U1 U2].
  unfold FindStringSubmatch, pathExp, segmentName.
  cbn [matchRegex String.append]. rewrite U1, U2, U3.
  rewrite consumed_three.
  change (matchRegex afterSegment ?s ?c ?k)
    with (matchRegex (bracketed 2) s c
            (fun s1 caps1 => matchRegex fieldPart s1 caps1 k)).
  apply bracketed_optional;
    [exact Hidx | apply renderField_ahead; exact Hfield |].
  apply fieldPart_text; [exact Hfield|].
  cbv zeta. rewrite consumed_all. reflexivity.
Qed.

(** The capture groups of a text of the grammar, read by index. *)
Lemma groups_of_text (t : PathText) (whole : string) :
  let match_ := map (setCapture 0 whole (capturesOfText t)) (seq 0 7) in
  group match_ 1 = textSegment t
  /\ group match_ 2 = written (textIndex t)
  /\ group match_ 3 = written (option_map fieldDigits (textField t))
  /\ group match_ 4
     = written (match textField t with
                | Some f => fieldRepetition f
                | None => None
                end)
  /\ group match_ 5
     = written (option_map compDigits
                  (match textField t with
                   | Some f => fieldComp f
                   | None => None
                   end))
  /\ group match_ 6
     = written (option_map subDigits
                  (match (match textField t with
                          | Some f => fieldComp f
                          | None => None
                          end) with
                   | Some c => compSub c
                   | None => None
                   end)).
Proof.
  destruct t as [seg idx [[fs fd rep [[cs cd [[ss sd]|]]|]]|]];
    destruct idx; try destruct rep; cbv zeta; repeat split; reflexivity.
Qed.

(** X1: every text of the path grammar parses, with a nil error, to the
    path made of its segment name and of its numbers as
    [parseIntOrDefault] reads them, absent parts taking their defaults;
    hyphen and dot serve alike as separators. *)
Theorem ParsePath_of_grammar_text :
  forall t : PathText,
    wellFormed t = true ->
    ParsePath (render t) = (pathOfText t, None).
Proof.
  intros t Hw. unfold ParsePath.
  rewrite (FindStringSubmatch_render t Hw).
  destruct (groups_of_text t (render t)) as (G1 & G2 & G3 & G4 & G5 & G6).
  cbv zeta in G1, G2, G3, G4, G5, G6.
  rewrite G1, G2, G3, G4, G5, G6.
  assert (Hseg : isSegmentName (textSegment t) = true).
  { unfold wellFormed in Hw. apply andb_true_iff in Hw as [Hw _].
    apply andb_true_iff in Hw as [Hw _]. exact Hw. }
  destruct t as [seg idx field]. cbn [textSegment] in *.
  destruct seg as [|c1 [|c2 [|c3 [|]]]]; try discriminate.
  cbn [isSegmentName] in Hseg.
  apply andb_true_iff in Hseg as [Hseg U3].
  apply andb_true_iff in Hseg as [U1 U2].
  rewrite (parseSegmentNameOrError_shape c1 c2 c3 U1 U2 U3).
  reflexivity.
Qed.

Lemma ParsePath_of_grammar_text_witness :
  wellFormed (mkText "OBX" (Some "2")
                (Some (mkField "." "5" None (Some (mkComp "-" "2" None))))) = true
  /\ render (mkText "OBX" (Some "2")
               (Some (mkField "." "5" None (Some (mkComp "-" "2" None)))))
     = "OBX[2].5-2"
  /\ ParsePath "OBX[2].5-2" = (mkPath "OBX" 2 5 1 2 0, None).
Proof.
  split; [reflexivity|]. split; [reflexivity|].
  apply (ParsePath_of_grammar_text
           (mkText "OBX" (Some "2")
              (Some (mkField "." "5" None (Some (mkComp "-" "2" None)))))).
  reflexivity.
Defined.

(** ** The validator *)

(** X8: the error of [Validate] is always one of seven messages; the
    message "if Field is set, Segment must be set" of the source is not
    among them, since a path with an empty segment never gets that far. *)
Theorem Validate_error_messages :
  forall (path : HL7Path) (err : string),
    Validate path = Some err -> In err validateErrors.
Proof.
  intros path err. unfold Validate, validateErrors.
  destruct (Segment path =? "")%string.
  - destruct (_ || _); [|discriminate].
    intros E; injection E as <-. simpl; tauto.
  - rewrite andb_false_r.
    repeat match goal with
           | |- (if ?b then _ else _) = _ -> _ =>
               destruct b; [intros E; injection E as <-; simpl; tauto|]
           end.
    discriminate.
Qed.

Lemma Validate_error_messages_witness :
  Validate (mkPath "PID" 1 0 0 2 0) = Some "if Component is set, Field must be set"
  /\ In "if Component is set, Field must be set" validateErrors.
Proof.
  split; [reflexivity|].
  apply (Validate_error_messages (mkPath "PID" 1 0 0 2 0)). reflexivity.
Defined.

(** X9: a path the validator accepts addresses a chain of levels with no
    gap: a subcomponent needs a component, a component needs a field, a
    field comes with a repetition index and the other way round, and
    whatever is set needs a segment name. *)
Theorem Validate_levels_nested :
  forall path : HL7Path,
    Validate path = None ->
    (Subcomponent path <> 0 -> Component path <> 0)
    /\ (Component path <> 0 -> Field path <> 0)
    /\ (Field path <> 0 <-> RepetitionIndex path <> 0)
    /\ (Field path <> 0 -> Segment path <> "")
    /\ (SegmentIndex path <> 0 -> Segment path <> "")
    /\ (Segment path = "MSH" -> SegmentIndex path = 1).
Proof.
  intros [seg i f r c s]. unfold Validate.
  cbn [Segment SegmentIndex Field RepetitionIndex Component Subcomponent].
  unfold neqb.
  destruct (String.eqb_spec seg "") as [->|Nseg].
  - destruct (Z.eqb_spec i 0), (Z.eqb_spec f 0), (Z.eqb_spec r 0),
             (Z.eqb_spec c 0), (Z.eqb_spec s 0);
      cbn [negb orb]; try discriminate.
    intros _. subst. repeat split; intros; congruence.
  - destruct (String.eqb_spec seg "MSH") as [->|Nmsh];
      destruct (Z.eqb_spec i 1), (Z.eqb_spec f 1), (Z.eqb_spec f 0),
               (Z.eqb_spec r 0), (Z.eqb_spec c 0), (Z.eqb_spec s 0);
      cbn [negb orb andb]; try discriminate; intros _;
      repeat split; intros; subst; try congruence; try lia.
Qed.

Lemma Validate_levels_nested_witness :
  Validate (mkPath "PID" 1 3 2 5 1) = None
  /\ Component (mkPath "PID" 1 3 2 5 1) <> 0.
Proof.
  split; [reflexivity|].
  apply (Validate_levels_nested (mkPath "PID" 1 3 2 5 1) eq_refl).
  discriminate.
Defined.

(** X10: a path that names a field and leaves the repetition index at
    zero, as a struct literal without [RepetitionIndex] does, is refused
    by the validator, so [AbstractHL7] returns an error for every
    message. *)
Theorem AbstractHL7_needs_repetition_index :
  forall (m : string) (path : HL7Path),
    Field path <> 0 -> RepetitionIndex path = 0 ->
    exists err, In err validateErrors
                /\ AbstractHL7 m path = Return "" (Some err).
Proof.
  intros m path Hf Hr. unfold AbstractHL7.
  destruct (Validate path) as [err|] eqn:Hv.
  - exists err. split; [|reflexivity].
    unfold Validate, validateErrors in *.
    destruct (Segment path =? "")%string.
    + destruct (_ || _); [|discriminate].
      injection Hv as <-. simpl; tauto.
    + rewrite andb_false_r in Hv.
      repeat match type of Hv with
             | (if ?b then _ else _) = _ =>
                 destruct b; [injection Hv as <-; simpl; tauto|]
             end.
      discriminate.
  - exfalso. destruct (Validate_accepted path Hv) as [_ H]. exact (H Hf Hr).
Qed.

Lemma AbstractHL7_needs_repetition_index_witness :
  Main.main
  = Some ("Error: if Field is set, RepetitionIndex must be at least 1"
          ++ String LF "")
  /\ exists err, In err validateErrors
                 /\ AbstractHL7 Main.message Main.path = Return "" (Some err).
Proof.
  split; [vm_compute; reflexivity|].
  apply (AbstractHL7_needs_repetition_index Main.message Main.path);
    [discriminate | reflexivity].
Defined.

(** ** Messages without a header *)

Lemma substring_0_0 (s : string) : String.substring 0 0 s = "".
Proof. destruct s; reflexivity. Qed.

Lemma prefix_as_substring (p s : string) :
  String.prefix p s = (String.substring 0 (String.length p) s =? p)%string.
Proof.
  revert s. induction p as [|a p IH]; intros s.
  - cbn [String.length]. rewrite substring_0_0. destruct s; reflexivity.
  - destruct s as [|b s]; [reflexivity|].
    cbn [String.prefix String.length String.substring String.eqb].
    rewrite <- IH.
    destruct (ascii_dec a b) as [->|N].
    + rewrite Ascii.eqb_refl. reflexivity.
    + destruct (Ascii.eqb_spec b a); [congruence | reflexivity].
Qed.

Lemma slice_prefix (m : string) (n : nat) :
  Z.of_nat n <= len m ->
  slice m 0 (Z.of_nat n) = Some (String.substring 0 n m).
Proof.
  intros H. unfold slice.
  destruct (Z.leb_spec 0 (Z.of_nat n)); [|lia].
  destruct (Z.leb_spec (Z.of_nat n) (len m)); [|lia].
  cbn [Z.leb Z.compare andb Z.to_nat]. rewrite Z.sub_0_r, Nat2Z.id. reflexivity.
Qed.

Lemma readSeparators_not_MSH (m : string) :
  HasPrefix m "MSH" = false ->
  readSeparators m
  = Return "" (Some "invalid HL7 message: must begin with MSH").
Proof.
  unfold HasPrefix. rewrite prefix_as_substring. cbn [String.length].
  intros H. unfold readSeparators.
  destruct (Z.ltb_spec (len m) 3); [reflexivity|].
  change 3 with (Z.of_nat 3). rewrite slice_prefix by (cbn; lia).
  cbn [orPanic bind]. rewrite H. reflexivity.
Qed.

Lemma readSeparators_short (m : string) :
  HasPrefix m "MSH" = true -> len m < 10 ->
  readSeparators m
  = Return ""
      (Some "invalid HL7 message: message too short to contain separators and meaningful data").
Proof.
  unfold HasPrefix. rewrite prefix_as_substring. cbn [String.length].
  intros H Hlen. unfold readSeparators.
  destruct (Z.ltb_spec (len m) 3) as [L|L].
  - exfalso. unfold len in L.
    destruct m as [|c1 [|c2 [|c3 m]]]; cbn in H; try discriminate;
      cbn [String.length] in L; try lia;
      repeat match type of H with
             | context [Ascii.eqb ?a ?b] => destruct (Ascii.eqb a b)
             end; cbn in H; discriminate.
  - change 3 with (Z.of_nat 3). rewrite slice_prefix by (cbn; lia).
    cbn [orPanic bind]. rewrite H. cbn [negb].
    destruct (Z.ltb_spec (len m) 10); [reflexivity | lia].
Qed.

(** X11: for every valid path other than the zero value, a message that
    does not begin with MSH gets the error "must begin with MSH", and a
    message that begins with MSH and has fewer than ten bytes gets the
    error "message too short"; this holds for MSH field 1 as well. *)
Theorem AbstractHL7_refuses_message_without_header :
  forall (m : string) (path : HL7Path),
    Validate path = None -> path <> zeroPath ->
    (HasPrefix m "MSH" = false ->
     AbstractHL7 m path
     = Return "" (Some "invalid HL7 message: must begin with MSH"))
    /\ (HasPrefix m "MSH" = true -> len m < 10 ->
        AbstractHL7 m path
        = Return ""
            (Some "invalid HL7 message: message too short to contain separators and meaningful data")).
Proof.
  intros m path Hv Hz. unfold AbstractHL7.
  rewrite Hv, (HL7Path_eqb_neq _ _ Hz). split.
  - intros H. rewrite (readSeparators_not_MSH m H). reflexivity.
  - intros H L. rewrite (readSeparators_short m H L). reflexivity.
Qed.

Lemma AbstractHL7_refuses_message_without_header_witness :
  AbstractHL7 "PID|1|2" (mkPath "MSH" 1 1 1 0 0)
  = Return "" (Some "invalid HL7 message: must begin with MSH")
  /\ AbstractHL7 "MSH|^~\&|" (mkPath "MSH" 1 1 1 0 0)
     = Return ""
         (Some "invalid HL7 message: message too short to contain separators and meaningful data").
Proof.
  split.
  - apply (AbstractHL7_refuses_message_without_header "PID|1|2"
             (mkPath "MSH" 1 1 1 0 0) eq_refl); [discriminate | reflexivity].
  - apply (AbstractHL7_refuses_message_without_header "MSH|^~\&|"
             (mkPath "MSH" 1 1 1 0 0) eq_refl);
      [discriminate | reflexivity | reflexivity].
Defined.

(** ** What a message that passes the header checks is *)

Lemma repeatedIn_false (l : list ascii) :
  forall seen : ascii -> bool,
    repeatedIn seen l = false
    <-> NoDup l /\ Forall (fun x => seen x = false) l.
Proof.
  induction l as [|a l IH]; intros seen; cbn [repeatedIn].
  - split; [intros _; split; constructor | reflexivity].
  - destruct (seen a) eqn:Sa.
    + split; [discriminate|]. intros [_ F]. inversion F; congruence.
    + rewrite IH. split.
      * intros [ND F]. split.
        -- constructor; [|exact ND]. intros Hin.
           rewrite Forall_forall in F. specialize (F a Hin). cbn in F.
           rewrite Ascii.eqb_refl in F. discriminate.
        -- constructor; [exact Sa|].
           rewrite Forall_forall in *. intros x Hx. specialize (F x Hx).
           cbn in F. destruct (Ascii.eqb x a); [discriminate | exact F].
      * intros [ND F]. inversion ND as [|? ? Hnotin ND']; subst.
        inversion F as [|? ? _ F']; subst. split; [exact ND'|].
        rewrite Forall_forall in *. intros x Hx. cbn.
        destruct (Ascii.eqb_spec x a) as [->|_]; [contradiction | auto].
Qed.

Lemma slice_3_10 (m : string) :
  10 <= len m -> slice m 3 10 = Some (String.substring 3 7 m).
Proof.
  intros H. unfold slice.
  destruct (Z.leb_spec 10 (len m)); [reflexivity | lia].
Qed.

Lemma index_block (m : string) (i : Z) :
  0 <= i < 7 -> index (String.substring 3 7 m) i = index m (3 + i).
Proof.
  intros H. unfold index.
  destruct (Z.ltb_spec i 0), (Z.ltb_spec (3 + i) 0); try lia.
  rewrite substring_correct1 by lia. f_equal. lia.
Qed.

Lemma readSeparators_next (m block : string) (fs : ascii) :
  readSeparators m = Next (block, fs)
  <-> HasPrefix m "MSH" = true /\ 10 <= len m
      /\ block = String.substring 3 7 m /\ index m 3 = Some fs.
Proof.
  unfold HasPrefix. rewrite prefix_as_substring. cbn [String.length].
  unfold readSeparators. split.
  - destruct (Z.ltb_spec (len m) 3); [discriminate|].
    change 3 with (Z.of_nat 3) at 1. rewrite slice_prefix by (cbn; lia).
    cbn [orPanic bind].
    destruct (String.substring 0 3 m =? "MSH")%string; [|discriminate].
    cbn [negb]. destruct (Z.ltb_spec (len m) 10); [discriminate|].
    rewrite slice_3_10 by lia. cbn [orPanic bind].
    rewrite (index_block m 0) by lia. cbn [Z.add].
    destruct (index m 3) as [c|]; [|discriminate].
    cbn [orPanic bind]. intros E. injection E as <- <-. auto.
  - intros (Hp & Hlen & -> & Hfs).
    destruct (Z.ltb_spec (len m) 3); [lia|].
    change 3 with (Z.of_nat 3) at 1. rewrite slice_prefix by (cbn; lia).
    cbn [orPanic bind]. rewrite Hp. cbn [negb].
    destruct (Z.ltb_spec (len m) 10); [lia|].
    rewrite slice_3_10 by lia. cbn [orPanic bind].
    rewrite (index_block m 0) by lia. cbn [Z.add]. rewrite Hfs. reflexivity.
Qed.

Lemma eqb_false_of_NoDup_head (a b : ascii) (l : list ascii) :
  NoDup (a :: l) -> In b l -> Ascii.eqb b a = false.
Proof.
  intros ND Hin. inversion ND as [|? ? Hnotin _]; subst.
  destruct (Ascii.eqb_spec b a) as [->|]; [contradiction | reflexivity].
Qed.

(** X12: a message passes the header checks with delimiters [d] exactly
    when it begins with MSH, has ten bytes or more, its bytes 3 to 7 are
    the five delimiters of [d], these five are pairwise distinct, and
    byte 8 or byte 9 is the field separator again. *)
Theorem passesHeaderChecks_iff :
  forall (m : string) (d : Delimiters),
    passesHeaderChecks m d
    <-> HasPrefix m "MSH" = true /\ 10 <= len m
        /\ index m 3 = Some (fieldSeparator d)
        /\ index m 4 = Some (componentSeparator d)
        /\ index m 5 = Some (repetitionSeparator d)
        /\ index m 6 = Some (escapeCharacter d)
        /\ index m 7 = Some (subcomponentSeparator d)
        /\ NoDup [fieldSeparator d; componentSeparator d; repetitionSeparator d;
                  escapeCharacter d; subcomponentSeparator d]
        /\ (index m 8 = Some (fieldSeparator d)
            \/ index m 9 = Some (fieldSeparator d)).
Proof.
  intros m d. unfold passesHeaderChecks. split.
  - intros (block & fs & Hr & Hc).
    apply readSeparators_next in Hr as (Hp & Hlen & -> & Hfs).
    unfold checkSeparators in Hc.
    rewrite (index_block m 1), (index_block m 2), (index_block m 3),
      (index_block m 4), (index_block m 5), (index_block m 6) in Hc by lia.
    cbn [Z.add Pos.add Pos.succ Pos.add_carry] in Hc.
    destruct (index m 4) as [c1|]; cbn [orPanic bind] in Hc; [|discriminate].
    destruct (Ascii.eqb c1 fs); [discriminate|].
    destruct (index m 5) as [c2|]; cbn [orPanic bind] in Hc; [|discriminate].
    destruct (Ascii.eqb c2 fs); [discriminate|].
    destruct (index m 6) as [c3|]; cbn [orPanic bind] in Hc; [|discriminate].
    destruct (Ascii.eqb c3 fs); [discriminate|].
    destruct (index m 7) as [c4|]; cbn [orPanic bind] in Hc; [|discriminate].
    destruct (Ascii.eqb c4 fs); [discriminate|].
    destruct (index m 8) as [c5|]; [|discriminate].
    cbn [orPanic bind] in Hc.
    destruct (Ascii.eqb_spec c5 fs) as [E5|N5]; cbn [negb bind] in Hc.
    + rewrite E5. destruct (repeatedIn _ _) eqn:Rep in Hc; [discriminate|].
      injection Hc as <-. cbn [fieldSeparator componentSeparator
        repetitionSeparator escapeCharacter subcomponentSeparator].
      apply repeatedIn_false in Rep as [ND _]. tauto.
    + destruct (index m 9) as [c6|]; [|discriminate].
      cbn [orPanic bind] in Hc.
      destruct (Ascii.eqb_spec c6 fs) as [E6|N6]; cbn [negb] in Hc;
        [|discriminate].
      rewrite E6. destruct (repeatedIn _ _) eqn:Rep in Hc; [discriminate|].
      injection Hc as <-. cbn [fieldSeparator componentSeparator
        repetitionSeparator escapeCharacter subcomponentSeparator].
      apply repeatedIn_false in Rep as [ND _]. tauto.
  - destruct d as [fs cs rs ec ss]. cbn [fieldSeparator componentSeparator
      repetitionSeparator escapeCharacter subcomponentSeparator].
    intros (Hp & Hlen & H3 & H4 & H5 & H6 & H7 & ND & Hclose).
    exists (String.substring 3 7 m), fs. split.
    + apply readSeparators_next. auto.
    + unfold checkSeparators.
      rewrite (index_block m 1), (index_block m 2), (index_block m 3),
        (index_block m 4), (index_block m 5), (index_block m 6) by lia.
      cbn [Z.add Pos.add Pos.succ Pos.add_carry]. rewrite H4, H5, H6, H7.
      cbn [orPanic bind].
      rewrite (eqb_false_of_NoDup_head fs cs _ ND) by (simpl; tauto).
      rewrite (eqb_false_of_NoDup_head fs rs _ ND) by (simpl; tauto).
      rewrite (eqb_false_of_NoDup_head fs ec _ ND) by (simpl; tauto).
      rewrite (eqb_false_of_NoDup_head fs ss _ ND) by (simpl; tauto).
      assert (Rep : repeatedIn (fun _ => false) [fs; cs; rs; ec; ss] = false).
      { apply repeatedIn_false. split; [exact ND|].
        rewrite Forall_forall. reflexivity. }
      pose proof (str_index_in_range m 8 ltac:(lia)) as [c5 E5].
      rewrite E5. cbn [orPanic bind].
      destruct (Ascii.eqb_spec c5 fs) as [->|N5]; cbn [negb bind].
      * rewrite Rep. reflexivity.
      * destruct Hclose as [E|E]; [congruence|].
        rewrite E. cbn [orPanic bind]. rewrite Ascii.eqb_refl. cbn [negb].
        rewrite Rep. reflexivity.
Qed.

(** ** The order of the header checks *)

Lemma existsb_seen_added (seen : ascii -> bool) (a : ascii) (l : list ascii) :
  existsb (fun b => if Ascii.eqb b a then true else seen b) l
  = existsb (Ascii.eqb a) l || existsb seen l.
Proof.
  induction l as [|x l IH]; cbn [existsb]; [reflexivity|].
  rewrite IH, (Ascii.eqb_sym x a).
  destruct (Ascii.eqb a x), (seen x), (existsb (Ascii.eqb a) l),
    (existsb seen l); reflexivity.
Qed.

(** The loop with the [seen] map finds a separator met before exactly
    when one is in the map from the start or the list has a byte
    twice. *)
Lemma repeatedIn_pairwiseDistinct (l : list ascii) :
  forall seen : ascii -> bool,
    repeatedIn seen l = existsb seen l || negb (pairwiseDistinct l).
Proof.
  induction l as [|a l IH]; intros seen;
    cbn [repeatedIn existsb pairwiseDistinct]; [reflexivity|].
  destruct (seen a); [reflexivity|].
  rewrite IH, existsb_seen_added.
  destruct (existsb (Ascii.eqb a) l), (existsb seen l), (pairwiseDistinct l);
    reflexivity.
Qed.

Lemma byteAt_index (m : string) (i : Z) (c : ascii) :
  index m i = Some c -> byteAt m i = c.
Proof. unfold byteAt. intros ->. reflexivity. Qed.

(** C5, as the code has it: for every message and every valid path
    other than the zero value, [AbstractHL7] returns what goes with the
    first of these conditions that holds, in this order: the message
    does not begin with MSH; it has fewer than ten bytes; the path is
    MSH field 1, which returns the field separator with a nil error; the
    component, the repetition, the escape, the subcomponent delimiter is
    the field separator; both bytes of the closing pair differ from the
    field separator; the five delimiters are not pairwise distinct.
    When none holds the segments are scanned with the five delimiters.
    In particular, on a message that begins with MSH, has ten bytes or
    more and an open closing pair, a path to MSH field 1 gets the field
    separator and a nil error, and any other path gets the error of the
    first delimiter that repeats the field separator, or "unexpected
    extra separators" when none does. *)
Theorem AbstractHL7_header_checks_in_order :
  forall (m : string) (path : HL7Path),
    Validate path = None -> path <> zeroPath ->
    AbstractHL7 m path
    = match firstApplying (headerChecks m path) with
      | Some (value, err) => Return value err
      | None => scanSegments (delimitersOf m) path 0 (segmentsOf m)
      end
    /\ (HasPrefix m "MSH" = true -> 10 <= len m ->
        byteAt m 8 <> byteAt m 3 -> byteAt m 9 <> byteAt m 3 ->
        AbstractHL7 m path
        = if isMSH path && (Field path =? 1)
          then Return (string_of_byte (byteAt m 3)) None
          else Return "" (Some (openPairError m))).
Proof.
  intros m path Hv Hz.
  assert (Order :
    AbstractHL7 m path
    = match firstApplying (headerChecks m path) with
      | Some (value, err) => Return value err
      | None => scanSegments (delimitersOf m) path 0 (segmentsOf m)
      end).
  { unfold AbstractHL7. rewrite Hv, (HL7Path_eqb_neq _ _ Hz).
    unfold headerChecks. cbv zeta.
    destruct (HasPrefix m "MSH") eqn:Hp; cbn [negb firstApplying];
      [|rewrite (readSeparators_not_MSH m Hp); reflexivity].
    destruct (Z.ltb_spec (len m) 10) as [L|L]; cbn [firstApplying];
      [rewrite (readSeparators_short m Hp L); reflexivity|].
    destruct (str_index_in_range m 3) as [fs E3]; [lia|].
    destruct (str_index_in_range m 4) as [c1 E4]; [lia|].
    destruct (str_index_in_range m 5) as [c2 E5]; [lia|].
    destruct (str_index_in_range m 6) as [c3 E6]; [lia|].
    destruct (str_index_in_range m 7) as [c4 E7]; [lia|].
    destruct (str_index_in_range m 8) as [c5 E8]; [lia|].
    destruct (str_index_in_range m 9) as [c6 E9]; [lia|].
    assert (R : readSeparators m = Next (String.substring 3 7 m, fs))
      by (apply readSeparators_next; auto).
    rewrite R. cbn [bind]. unfold delimitersOf.
    rewrite (byteAt_index m 3 fs E3), (byteAt_index m 4 c1 E4),
      (byteAt_index m 5 c2 E5), (byteAt_index m 6 c3 E6),
      (byteAt_index m 7 c4 E7), (byteAt_index m 8 c5 E8),
      (byteAt_index m 9 c6 E9).
    destruct (isMSH path && (Field path =? 1)); cbn [firstApplying];
      [reflexivity|].
    unfold checkSeparators.
    rewrite (index_block m 1), (index_block m 2), (index_block m 3),
      (index_block m 4), (index_block m 5), (index_block m 6) by lia.
    cbn [Z.add Pos.add Pos.succ Pos.add_carry].
    rewrite E4, E5, E6, E7, E8, E9. cbn [orPanic bind].
    destruct (Ascii.eqb c1 fs); cbn [firstApplying]; [reflexivity|].
    destruct (Ascii.eqb c2 fs); cbn [firstApplying]; [reflexivity|].
    destruct (Ascii.eqb c3 fs); cbn [firstApplying]; [reflexivity|].
    destruct (Ascii.eqb c4 fs); cbn [firstApplying]; [reflexivity|].
    rewrite repeatedIn_pairwiseDistinct. cbn [existsb orb].
    destruct (Ascii.eqb c5 fs); cbn [negb andb bind firstApplying].
    - destruct (pairwiseDistinct [fs; c1; c2; c3; c4]);
        cbn [negb firstApplying]; reflexivity.
    - destruct (Ascii.eqb c6 fs); cbn [negb firstApplying]; [|reflexivity].
      destruct (pairwiseDistinct [fs; c1; c2; c3; c4]);
        cbn [negb firstApplying]; reflexivity. }
  split; [exact Order|].
  intros Hp Hlen N8 N9. rewrite Order.
  unfold headerChecks, openPairError. cbv zeta. rewrite Hp.
  destruct (Z.ltb_spec (len m) 10) as [L|_]; [lia|].
  cbn [negb firstApplying].
  destruct (isMSH path && (Field path =? 1)); cbn [firstApplying];
    [reflexivity|].
  destruct (Ascii.eqb (byteAt m 4) (byteAt m 3)); cbn [firstApplying];
    [reflexivity|].
  destruct (Ascii.eqb (byteAt m 5) (byteAt m 3)); cbn [firstApplying];
    [reflexivity|].
  destruct (Ascii.eqb (byteAt m 6) (byteAt m 3)); cbn [firstApplying];
    [reflexivity|].
  destruct (Ascii.eqb (byteAt m 7) (byteAt m 3)); cbn [firstApplying];
    [reflexivity|].
  apply Ascii.eqb_neq in N8, N9. rewrite N8, N9. reflexivity.
Qed.

Lemma AbstractHL7_header_checks_in_order_witness :
  AbstractHL7 openPairMessage (mkPath "MSH" 1 1 1 0 0) = Return "|" None
  /\ AbstractHL7 openPairMessage (mkPath "MSH" 1 2 1 0 0)
     = Return "" (Some "unexpected extra separators")
  /\ AbstractHL7 doubledSeparatorMessage (mkPath "PID" 1 0 0 0 0)
     = Return "" (Some "missing component separator").
Proof.
  split; [|split].
  - apply (proj2 (AbstractHL7_header_checks_in_order openPairMessage
                    (mkPath "MSH" 1 1 1 0 0) eq_refl ltac:(discriminate)));
      vm_compute; first [reflexivity | discriminate].
  - apply (proj2 (AbstractHL7_header_checks_in_order openPairMessage
                    (mkPath "MSH" 1 2 1 0 0) eq_refl ltac:(discriminate)));
      vm_compute; first [reflexivity | discriminate].
  - apply (proj2 (AbstractHL7_header_checks_in_order doubledSeparatorMessage
                    (mkPath "PID" 1 0 0 0 0) eq_refl ltac:(discriminate)));
      vm_compute; first [reflexivity | discriminate].
Defined.

(** C5 as it is stated fails: positions 5 and 6 of the delimiter block
    of [MSH|^~\&XYZ] are X and Y, neither the field separator, and the
    valid path MSH.1 still gets the field separator with a nil error. *)
Lemma AbstractHL7_MSH1_before_closing_pair :
  slice openPairMessage 3 10 = Some "|^~\&XY"
  /\ index "|^~\&XY" 0 = Some "|"%char
  /\ index "|^~\&XY" 5 = Some "X"%char
  /\ index "|^~\&XY" 6 = Some "Y"%char
  /\ ParsePath "MSH.1" = (mkPath "MSH" 1 1 1 0 0, None)
  /\ Validate (mkPath "MSH" 1 1 1 0 0) = None
  /\ AbstractHL7 openPairMessage (mkPath "MSH" 1 1 1 0 0) = Return "|" None.
Proof. repeat split; vm_compute; reflexivity. Qed.

(** ** What the segments of a message are *)

Lemma replaceFrom_other (a c : ascii) (new s : string) :
  Ascii.eqb c a = false ->
  replaceFrom (String a "") new 0 (String c s)
  = String c (replaceFrom (String a "") new 0 s).
Proof.
  intros N. cbn [replaceFrom]. rewrite (prefix_other _ _ _ _ N). reflexivity.
Qed.

Lemma replaceFrom_hit (a : ascii) (new s : string) :
  replaceFrom (String a "") new 0 (String a s)
  = new ++ replaceFrom (String a "") new 0 s.
Proof.
  cbn [replaceFrom String.prefix]. destruct (ascii_dec a a); [|congruence].
  rewrite prefix_nil. reflexivity.
Qed.

Lemma splitFrom_CRLF_other (c : ascii) (s : string) :
  Ascii.eqb c CR = false ->
  splitFrom CRLF 0 (String c s)
  = match splitFrom CRLF 0 s with
    | piece :: pieces => String c piece :: pieces
    | [] => [String c ""]
    end.
Proof.
  intros N. unfold CRLF. cbn [splitFrom]. rewrite (prefix_other _ _ _ _ N).
  reflexivity.
Qed.

Lemma splitFrom_CRLF_hit (s : string) :
  splitFrom CRLF 0 (String CR (String LF s)) = "" :: splitFrom CRLF 0 s.
Proof.
  unfold CRLF. cbn [splitFrom].
  replace (String.prefix (String CR (String LF "")) (String CR (String LF s)))
    with true; [reflexivity|].
  cbn [String.prefix]. destruct (ascii_dec CR CR); [|congruence].
  destruct (ascii_dec LF LF); [|congruence]. rewrite prefix_nil. reflexivity.
Qed.

Lemma splitFrom_CRLF_lone_CR (s : string) :
  splitFrom CRLF 0 (String CR (String CR s))
  = match splitFrom CRLF 0 (String CR s) with
    | piece :: pieces => String CR piece :: pieces
    | [] => [String CR ""]
    end.
Proof.
  unfold CRLF. cbn [splitFrom].
  replace (String.prefix (String CR (String LF "")) (String CR (String CR s)))
    with false; [reflexivity|].
  cbn [String.prefix]. destruct (ascii_dec CR CR); [|congruence].
  destruct (ascii_dec LF CR); [discriminate | reflexivity].
Qed.

(** The three passes of [splitByAnyOf] on the line terminators. *)
Lemma segmentsOf_cons (c : ascii) (rest : string) :
  segmentsOf (String c rest)
  = if Ascii.eqb c LF then "" :: segmentsOf rest
    else if Ascii.eqb c CR then String CR "" :: segmentsOf rest
    else match segmentsOf rest with
         | line :: more => String c line :: more
         | [] => [String c ""]
         end.
Proof.
  rewrite !segmentsOf_unfold. unfold ReplaceAll, Split.
  destruct (Ascii.eqb_spec c LF) as [->|NLF].
  - rewrite replaceFrom_other by reflexivity. rewrite replaceFrom_hit.
    cbn [CRLF String.append]. apply splitFrom_CRLF_hit.
  - destruct (Ascii.eqb_spec c CR) as [->|NCR].
    + rewrite replaceFrom_hit. cbn [CRLF String.append].
      rewrite replaceFrom_other by reflexivity. rewrite replaceFrom_hit.
      cbn [CRLF String.append].
      rewrite splitFrom_CRLF_lone_CR, splitFrom_CRLF_hit. reflexivity.
    + apply Ascii.eqb_neq in NLF, NCR.
      rewrite replaceFrom_other by exact NCR.
      rewrite replaceFrom_other by exact NLF.
      apply splitFrom_CRLF_other. exact NCR.
Qed.

(** X13: the segments [AbstractHL7] works on are the lines of the message
    cut in one pass at every line feed and after every carriage return:
    a line feed is dropped, a carriage return stays at the end of the
    segment before it (so CR LF gives a segment that ends in CR and an
    empty segment after it). *)
Theorem segmentsOf_is_linesKeepingCR :
  forall m : string, segmentsOf m = linesKeepingCR m.
Proof.
  induction m as [|c m IH].
  - reflexivity.
  - rewrite segmentsOf_cons. cbn [linesKeepingCR]. rewrite IH. reflexivity.
Qed.

Lemma segmentsOf_oneLine_then (x rest : string) :
  oneLine x = true ->
  segmentsOf (x ++ String LF rest) = x :: segmentsOf rest
  /\ segmentsOf (x ++ String CR rest) = (x ++ String CR "") :: segmentsOf rest
  /\ segmentsOf x = [x].
Proof.
  unfold oneLine. induction x as [|c x IH]; intros H.
  - cbn [String.append]. rewrite !segmentsOf_cons. repeat split.
  - cbn [avoids] in H.
    apply andb_true_iff in H as [H1 H2].
    apply andb_true_iff in H1 as [Ncr Hcr].
    apply andb_true_iff in H2 as [Nlf Hlf].
    apply negb_true_iff in Ncr, Nlf.
    destruct IH as (I1 & I2 & I3); [rewrite Hcr, Hlf; reflexivity|].
    cbn [String.append]. rewrite !segmentsOf_cons, Ncr, Nlf, I1, I2, I3.
    repeat split.
Qed.

(** X14: segment texts without a line terminator in them, joined by line
    feeds, are the segments of the message they make, in order; joined
    by carriage returns, every segment but the last comes back with a
    carriage return at its end. *)
Theorem segmentsOf_joined_lines :
  forall (first : string) (others : list string),
    forallb oneLine (first :: others) = true ->
    segmentsOf (joinLines (String LF "") (first :: others)) = first :: others
    /\ segmentsOf (joinLines (String CR "") (first :: others))
       = (map endingInCR (removelast (first :: others))
          ++ [last (first :: others) ""])%list.
Proof.
  intros first others. revert first.
  induction others as [|second others IH]; intros first H.
  - cbn [forallb] in H. apply andb_true_iff in H as [H _].
    cbn [joinLines String.concat removelast map last app].
    destruct (segmentsOf_oneLine_then first "" H) as (_ & _ & ->). split; reflexivity.
  - cbn [forallb] in H. apply andb_true_iff in H as [H1 H2].
    specialize (IH second H2). cbn [forallb] in IH. destruct IH as [IH1 IH2].
    unfold joinLines in *.
    change (String.concat ?sep (first :: second :: others))
      with (first ++ sep ++ String.concat sep (second :: others)).
    cbn [String.append].
    destruct (segmentsOf_oneLine_then first
                (String.concat (String LF "") (second :: others)) H1) as (-> & _ & _).
    destruct (segmentsOf_oneLine_then first
                (String.concat (String CR "") (second :: others)) H1) as (_ & -> & _).
    rewrite IH1, IH2. split; reflexivity.
Qed.

Lemma segmentsOf_joined_lines_witness :
  segmentsOf (joinLines (String LF "") Tests.lines) = Tests.lines
  /\ segmentsOf Tests.message
     = (map endingInCR (removelast Tests.lines) ++ [last Tests.lines ""])%list.
Proof.
  apply (segmentsOf_joined_lines
           "MSH|^~\&|HIS|RIH|EKG|EKG|20060529090131||ADT^A01|MSG00001|P|2.5"
           (tl Tests.lines)).
  vm_compute. reflexivity.
Defined.

(** ** The value is a part of the message *)

Lemma partOf_refl (s : string) : partOf s s.
Proof. exists "", "". cbn. rewrite append_nil_r. reflexivity. Qed.

Lemma partOf_nil (s : string) : partOf "" s.
Proof. exists "", s. reflexivity. Qed.

Lemma partOf_trans (a b c : string) : partOf a b -> partOf b c -> partOf a c.
Proof.
  intros (x1 & y1 & ->) (x2 & y2 & ->).
  exists (x2 ++ x1), (y1 ++ y2). rewrite !append_assoc. reflexivity.
Qed.

Lemma partOf_cons (p : string) (c : ascii) (s : string) :
  partOf p s -> partOf p (String c s).
Proof. intros (x & y & ->). exists (String c x), y. reflexivity. Qed.

(** The pieces of a split: the first is a prefix of the text, all are
    parts of it. *)
Lemma splitFrom_parts (sep s : string) :
  forall skip,
    (skip = 0%nat -> exists after, s = hd "" (splitFrom sep 0 s) ++ after)
    /\ (forall p, In p (splitFrom sep skip s) -> partOf p s).
Proof.
  induction s as [|c s IH]; intros skip.
  - split.
    + intros _. exists "". reflexivity.
    + cbn. intros p [<-|[]]. apply partOf_refl.
  - cbn [splitFrom]. destruct skip as [|k].
    + destruct (String.prefix sep (String c s)).
      * split; [intros _; exists (String c s); reflexivity|].
        intros p [<-|Hin]; [apply partOf_nil|].
        apply partOf_cons. exact (proj2 (IH _) p Hin).
      * destruct (IH 0%nat) as [Hhd Hin0]. specialize (Hhd eq_refl).
        pose proof (splitFrom_not_nil sep s 0) as N.
        destruct (splitFrom sep 0 s) as [|piece pieces]; [congruence|].
        cbn [hd] in *. destruct Hhd as [after E].
        split; [intros _; exists after; cbn; congruence|].
        intros p [<-|Hin].
        -- exists "", after. cbn. congruence.
        -- apply partOf_cons. apply Hin0. right. exact Hin.
    + split; [discriminate|]. intros p Hin. apply partOf_cons.
      exact (proj2 (IH k) p Hin).
Qed.

Lemma Split_partOf (s sep p : string) : In p (Split s sep) -> partOf p s.
Proof. apply (splitFrom_parts sep s 0). Qed.

Lemma segmentsOf_parts (s : string) :
  (exists after, s = hd "" (segmentsOf s) ++ after)
  /\ (forall p, In p (segmentsOf s) -> partOf p s).
Proof.
  induction s as [|c s [[after E] IH]].
  - split; [exists ""; reflexivity|].
    intros p [<-|[]]. apply partOf_refl.
  - rewrite segmentsOf_cons. destruct (Ascii.eqb_spec c LF) as [->|_].
    + split; [exists (String LF s); reflexivity|].
      intros p [<-|Hin]; [apply partOf_nil | apply partOf_cons, IH, Hin].
    + destruct (Ascii.eqb_spec c CR) as [->|_].
      * split; [exists s; reflexivity|].
        intros p [<-|Hin]; [exists "", s; reflexivity | apply partOf_cons, IH, Hin].
      * destruct (segmentsOf s) as [|line more].
        -- split; [exists s; reflexivity|].
           intros p [<-|[]]. exists "", s. reflexivity.
        -- cbn [hd] in *. split; [exists after; cbn; congruence|].
           intros p [<-|Hin].
           ++ exists "", after. cbn. congruence.
           ++ apply partOf_cons, IH. right. exact Hin.
Qed.

Lemma index_In {A : Type} (l : list A) (i : Z) (x : A) :
  GoSlices.index l i = Some x -> In x l.
Proof.
  unfold GoSlices.index. destruct (i <? 0); [discriminate|].
  apply nth_error_In.
Qed.

Lemma targetSegment_In (path : HL7Path) (segments : list string) (s : string) :
  targetSegment path segments = Some s -> In s segments.
Proof.
  unfold targetSegment. destruct (1 <=? SegmentIndex path); [|discriminate].
  intros H. apply nth_error_In in H. unfold matching in H.
  apply filter_In in H. tauto.
Qed.

(** Where the value of [extractFrom] comes from. *)
Lemma extractFrom_value (d : Delimiters) (path : HL7Path) (segment v : string)
    (err : error) :
  extractFrom d path segment = Return v err ->
  err = None
  /\ (v = ""
      \/ (Field path = 0 /\ v = segment)
      \/ exists fields field repetition,
           Field path <> 0
           /\ fieldList d path segment = Next fields
           /\ GoSlices.index fields (Field path) = Some field
           /\ lookup1 (repetitionList d path field) (RepetitionIndex path)
              = Some repetition
           /\ ((Component path = 0 /\ v = repetition)
               \/ exists component,
                    Component path <> 0
                    /\ lookup1 (componentList d repetition) (Component path)
                       = Some component
                    /\ ((Subcomponent path = 0 /\ v = component)
                        \/ (Subcomponent path <> 0
                            /\ lookup1 (subcomponentList d component)
                                 (Subcomponent path) = Some v)))).
Proof.
  unfold extractFrom, lookup1.
  destruct (Z.eqb_spec (Field path) 0) as [F0|NF].
  { intros E; injection E as <- <-. auto. }
  destruct (fieldList_total d path segment) as [fields Hfl].
  rewrite Hfl. cbn [bind].
  destruct (Field path >=? GoSlices.len fields).
  { intros E; injection E as <- <-. auto. }
  destruct (GoSlices.index fields (Field path)) as [field|] eqn:Hfield;
    cbn [orPanic bind]; [|discriminate].
  destruct (RepetitionIndex path >? _).
  { intros E; injection E as <- <-. auto. }
  destruct (GoSlices.index (repetitionList d path field) _) as [repetition|] eqn:Hrep;
    cbn [orPanic bind]; [|discriminate].
  destruct (Z.eqb_spec (Component path) 0) as [C0|NC].
  { intros E; injection E as <- <-. split; [reflexivity|]. right; right.
    exists fields, field, repetition. auto 10. }
  destruct (Component path >? _).
  { intros E; injection E as <- <-. auto. }
  destruct (GoSlices.index (componentList d repetition) _) as [component|] eqn:Hcomp;
    cbn [orPanic bind]; [|discriminate].
  destruct (Z.eqb_spec (Subcomponent path) 0) as [S0|NS].
  { intros E; injection E as <- <-. split; [reflexivity|]. right; right.
    exists fields, field, repetition. repeat (split; [first [assumption | reflexivity]|]).
    right. exists component. auto. }
  destruct (Subcomponent path >? _).
  { intros E; injection E as <- <-. auto. }
  destruct (GoSlices.index (subcomponentList d component) _) as [sub|] eqn:Hsub;
    cbn [orPanic bind]; [|discriminate].
  intros E; injection E as <- <-. split; [reflexivity|]. right; right.
  exists fields, field, repetition. repeat (split; [first [assumption | reflexivity]|]).
  right. exists component. auto.
Qed.

Lemma passesHeaderChecks_run (m : string) (d : Delimiters) (path : HL7Path) :
  passesHeaderChecks m d -> Validate path = None -> path <> zeroPath ->
  isMSH path && (Field path =? 1) = false ->
  AbstractHL7 m path
  = match targetSegment path (segmentsOf m) with
    | Some segment => extractFrom d path segment
    | None => Return "" None
    end.
Proof.
  intros (block & fs & Hread & Hcheck) Hv Hz Hmsh. unfold AbstractHL7.
  rewrite Hv, (HL7Path_eqb_neq _ _ Hz), Hread. cbn [bind].
  rewrite Hmsh, Hcheck. cbn [bind]. apply scanSegments_target.
Qed.

Lemma Validate_field_zero (path : HL7Path) :
  Validate path = None -> Field path = 0 ->
  isMSH path && (Field path =? 1) = false
  /\ RepetitionIndex path = 0 /\ Component path = 0 /\ Subcomponent path = 0.
Proof.
  intros Hv F0. rewrite F0. rewrite andb_false_r. split; [reflexivity|].
  destruct path as [seg i f r c s]. cbn in F0. subst f.
  unfold Validate in Hv.
  cbn [Segment SegmentIndex Field RepetitionIndex Component Subcomponent] in *.
  unfold neqb in Hv. cbn [Z.eqb negb orb andb] in Hv.
  rewrite ?andb_false_r, ?orb_false_r, ?andb_true_r in Hv.
  destruct (Z.eqb_spec r 0), (Z.eqb_spec c 0), (Z.eqb_spec s 0); auto;
    exfalso;
    destruct (seg =? "")%string; cbn [negb orb andb] in Hv;
    rewrite ?orb_true_r in Hv; try discriminate;
    destruct ((seg =? "MSH")%string && negb (i =? 1)); discriminate.
Qed.

(** X15: a valid path with a segment and no field gets the whole target
    segment, or the empty string when the message has no such segment;
    the header checks apply, no delimiter is used. *)
Theorem AbstractHL7_whole_segment :
  forall (m : string) (d : Delimiters) (path : HL7Path),
    passesHeaderChecks m d ->
    Validate path = None -> path <> zeroPath -> Field path = 0 ->
    AbstractHL7 m path
    = Return (match targetSegment path (segmentsOf m) with
              | Some segment => segment
              | None => ""
              end) None.
Proof.
  intros m d path Hp Hv Hz F0.
  destruct (Validate_field_zero path Hv F0) as (Hmsh & _).
  rewrite (passesHeaderChecks_run m d path Hp Hv Hz Hmsh).
  destruct (targetSegment path (segmentsOf m)); [|reflexivity].
  unfold extractFrom. rewrite F0. reflexivity.
Qed.

Lemma AbstractHL7_whole_segment_witness :
  AbstractHL7 shortMessage (mkPath "PID" 1 0 0 0 0) = Return "PID|1|2" None
  /\ AbstractHL7 shortMessage (mkPath "PID" 2 0 0 0 0) = Return "" None.
Proof.
  split.
  - apply (AbstractHL7_whole_segment shortMessage usualDelimiters
             (mkPath "PID" 1 0 0 0 0) shortMessage_passes);
      [reflexivity | discriminate | reflexivity].
  - apply (AbstractHL7_whole_segment shortMessage usualDelimiters
             (mkPath "PID" 2 0 0 0 0) shortMessage_passes);
      [reflexivity | discriminate | reflexivity].
Defined.

Lemma fieldList_field_In (d : Delimiters) (path : HL7Path) (segment : string)
    (fields : list string) (field : string) :
  fieldList d path segment = Next fields ->
  GoSlices.index fields (Field path) = Some field ->
  isMSH path && (Field path =? 1) = false ->
  In field (Split segment (string_of_byte (fieldSeparator d))).
Proof.
  unfold fieldList. intros Hfl Hidx Hmsh.
  destruct (isMSH path).
  - cbn [andb] in Hmsh. apply Z.eqb_neq in Hmsh. unfold Split in *.
    pose proof (splitFrom_not_nil (string_of_byte (fieldSeparator d)) segment 0) as N.
    destruct (splitFrom (string_of_byte (fieldSeparator d)) 0 segment) as [|x l];
      [congruence|].
    rewrite upto_1_cons, from_1_cons in Hfl. cbn [orPanic bind] in Hfl.
    injection Hfl as <-. cbn [firstn app] in Hidx.
    unfold GoSlices.index in Hidx.
    destruct (Z.ltb_spec (Field path) 0); [discriminate|].
    destruct (Z.to_nat (Field path)) as [|[|n]] eqn:En; cbn [nth_error] in Hidx.
    + injection Hidx as <-. left. reflexivity.
    + exfalso. lia.
    + right. eapply nth_error_In. exact Hidx.
  - injection Hfl as <-. eapply index_In. exact Hidx.
Qed.

Lemma repetitionList_partOf (d : Delimiters) (path : HL7Path) (field p : string) :
  In p (repetitionList d path field) -> partOf p field.
Proof.
  unfold repetitionList. destruct (negb _).
  - apply Split_partOf.
  - intros [<-|[]]. apply partOf_refl.
Qed.

(** X16: unless the path addresses MSH field 1, a value [AbstractHL7]
    returns with a nil error stands in the message as it is, in one
    piece: nothing is made up, decoded or joined. *)
Theorem AbstractHL7_value_partOf_message :
  forall (m : string) (path : HL7Path) (v : string),
    isMSH path && (Field path =? 1) = false ->
    AbstractHL7 m path = Return v None ->
    partOf v m.
Proof.
  intros m path v Hmsh. unfold AbstractHL7.
  destruct (Validate path); [discriminate|].
  destruct (HL7Path_eqb path zeroPath).
  { intros E; injection E as <-. apply partOf_refl. }
  destruct (readSeparators_total m) as [[e ->] | (block & fs & -> & Hlen)];
    cbn [bind]; [discriminate|].
  rewrite Hmsh.
  destruct (checkSeparators_total block fs Hlen) as [[e ->] | [d ->]];
    cbn [bind]; [discriminate|].
  rewrite scanSegments_target.
  destruct (targetSegment path (segmentsOf m)) as [segment|] eqn:Ht.
  2:{ intros E; injection E as <-. apply partOf_nil. }
  intros E.
  assert (Hseg : partOf segment m).
  { apply (proj2 (segmentsOf_parts m)). eapply targetSegment_In. exact Ht. }
  apply extractFrom_value in E as [_ [->|[[_ ->]|E]]];
    [apply partOf_nil | exact Hseg |].
  destruct E as (fields & field & repetition & _ & Hfl & Hfield & Hrep & E).
  assert (Hf : partOf field segment).
  { eapply Split_partOf, fieldList_field_In; eassumption. }
  assert (Hr : partOf repetition field).
  { eapply repetitionList_partOf, index_In. exact Hrep. }
  assert (Hrm : partOf repetition m)
    by (eapply partOf_trans; [exact Hr|]; eapply partOf_trans; eassumption).
  destruct E as [[_ ->]|(component & _ & Hcomp & E)]; [exact Hrm|].
  assert (Hc : partOf component m).
  { eapply partOf_trans; [|exact Hrm]. eapply Split_partOf, index_In. exact Hcomp. }
  destruct E as [[_ ->]|[_ Hsub]]; [exact Hc|].
  eapply partOf_trans; [|exact Hc]. eapply Split_partOf, index_In. exact Hsub.
Qed.

Lemma AbstractHL7_value_partOf_message_witness :
  AbstractHL7 Tests.message (mkPath "PID" 1 3 2 5 0) = Return "MRN" None
  /\ partOf "MRN" Tests.message.
Proof.
  assert (E : AbstractHL7 Tests.message (mkPath "PID" 1 3 2 5 0) = Return "MRN" None)
    by (vm_compute; reflexivity).
  split; [exact E|].
  apply (AbstractHL7_value_partOf_message Tests.message (mkPath "PID" 1 3 2 5 0));
    [reflexivity | exact E].
Defined.

(** ** Delimiters are left out of the value *)

Lemma avoids_append (c : ascii) (a b : string) :
  avoids c (a ++ b) = avoids c a && avoids c b.
Proof.
  induction a as [|x a IH]; cbn [String.append avoids]; [reflexivity|].
  rewrite IH, andb_assoc. reflexivity.
Qed.

Lemma avoids_partOf (c : ascii) (p s : string) :
  partOf p s -> avoids c s = true -> avoids c p = true.
Proof.
  intros (x & y & ->). rewrite !avoids_append, !andb_true_iff. tauto.
Qed.

(** No piece of a split on one byte holds that byte. *)
Lemma splitFrom_byte_avoids (a : ascii) (s p : string) :
  In p (splitFrom (String a "") 0 s) -> avoids a p = true.
Proof.
  revert p. induction s as [|c s IH]; intros p.
  - cbn. intros [<-|[]]. reflexivity.
  - cbn [splitFrom String.prefix String.length Nat.pred].
    destruct (ascii_dec a c) as [->|N].
    + rewrite prefix_nil. intros [<-|Hin]; [reflexivity | apply IH, Hin].
    + pose proof (splitFrom_not_nil (String a "") s 0) as NN.
      destruct (splitFrom (String a "") 0 s) as [|piece pieces]; [congruence|].
      intros [<-|Hin].
      * cbn [avoids]. rewrite (IH piece) by (left; reflexivity).
        destruct (Ascii.eqb_spec c a); [congruence | reflexivity].
      * apply IH. right. exact Hin.
Qed.

Lemma string_of_byte_ASCII (b : ascii) :
  isASCII b -> string_of_byte b = String b "".
Proof.
  unfold isASCII, string_of_byte. intros H.
  destruct (N.ltb_spec (N_of_ascii b) 128); [reflexivity | lia].
Qed.

Lemma Split_byte_avoids (b : ascii) (s p : string) :
  isASCII b -> In p (Split s (string_of_byte b)) -> avoids b p = true.
Proof.
  intros H. rewrite (string_of_byte_ASCII b H). apply splitFrom_byte_avoids.
Qed.

(** X17: when the four delimiters used for splitting are ASCII bytes, the
    value returned for a field of a segment other than MSH holds neither
    the field separator nor the repetition separator; with a component
    asked for it holds no component separator, and with a subcomponent
    asked for no subcomponent separator either. *)
Theorem AbstractHL7_value_avoids_delimiters :
  forall (m : string) (d : Delimiters) (path : HL7Path) (v : string),
    passesHeaderChecks m d ->
    isASCII (fieldSeparator d) -> isASCII (repetitionSeparator d) ->
    isASCII (componentSeparator d) -> isASCII (subcomponentSeparator d) ->
    isMSH path = false -> Field path <> 0 ->
    AbstractHL7 m path = Return v None ->
    avoids (fieldSeparator d) v = true
    /\ avoids (repetitionSeparator d) v = true
    /\ (Component path <> 0 -> avoids (componentSeparator d) v = true)
    /\ (Subcomponent path <> 0 -> avoids (subcomponentSeparator d) v = true).
Proof.
  intros m d path v Hp Afs Ars Acs Ass Hmsh Hf H.
  destruct (Validate path) as [e|] eqn:Hv.
  { unfold AbstractHL7 in H. rewrite Hv in H. discriminate. }
  assert (Hz : path <> zeroPath) by (intros ->; apply Hf; reflexivity).
  rewrite (passesHeaderChecks_run m d path Hp Hv Hz) in H
    by (rewrite Hmsh; reflexivity).
  destruct (targetSegment path (segmentsOf m)) as [segment|].
  2:{ injection H as <-. repeat split; reflexivity. }
  apply extractFrom_value in H as [_ [->|[[F0 _]|H]]];
    [repeat split; reflexivity | contradiction |].
  destruct H as (fields & field & repetition & _ & Hfl & Hfield & Hrep & H).
  assert (F1 : avoids (fieldSeparator d) field = true).
  { apply Split_byte_avoids with (s := segment); [exact Afs|].
    eapply fieldList_field_In; [exact Hfl | exact Hfield |].
    rewrite Hmsh. reflexivity. }
  assert (Hrin : In repetition (Split field (string_of_byte (repetitionSeparator d)))).
  { apply index_In in Hrep. unfold repetitionList in Hrep.
    rewrite Hmsh in Hrep. exact Hrep. }
  assert (R1 : avoids (fieldSeparator d) repetition = true)
    by (eapply avoids_partOf; [eapply Split_partOf; exact Hrin | exact F1]).
  assert (R2 : avoids (repetitionSeparator d) repetition = true)
    by (eapply Split_byte_avoids; [exact Ars | exact Hrin]).
  destruct H as [[C0 ->]|(component & NC & Hcomp & H)].
  { repeat split; try assumption; [contradiction|].
    intros NS. exfalso.
    unfold Validate in Hv.
    destruct (Segment path =? "")%string eqn:Es.
    - unfold isMSH in Hmsh. apply neqb_true in Hf.
      destruct (SegmentIndex path !=? 0); cbn [orb] in Hv; [discriminate|].
      rewrite Hf in Hv. discriminate.
    - fold (isMSH path) in Hv. rewrite Hmsh in Hv. cbn [andb] in Hv.
      rewrite C0 in Hv. apply neqb_true in NS. rewrite NS in Hv.
      cbn [Z.eqb andb neqb negb] in Hv.
      repeat match type of Hv with
             | (if ?b then _ else _) = _ => destruct b; [discriminate|]
             end.
      discriminate. }
  apply index_In in Hcomp. unfold componentList in Hcomp.
  pose proof (Split_partOf _ _ _ Hcomp) as Pc.
  assert (C1 : avoids (fieldSeparator d) component = true)
    by (eapply avoids_partOf; eassumption).
  assert (C2 : avoids (repetitionSeparator d) component = true)
    by (eapply avoids_partOf; eassumption).
  assert (C3 : avoids (componentSeparator d) component = true)
    by (eapply Split_byte_avoids; [exact Acs | exact Hcomp]).
  destruct H as [[S0 ->]|[NS Hsub]].
  { repeat split; try assumption; intros; [assumption | contradiction]. }
  apply index_In in Hsub. unfold subcomponentList in Hsub.
  pose proof (Split_partOf _ _ _ Hsub) as Ps.
  repeat split; intros;
    first [ eapply Split_byte_avoids; [exact Ass | exact Hsub]
          | eapply avoids_partOf; eassumption ].
Qed.

Lemma usualDelimiters_ASCII :
  isASCII (fieldSeparator usualDelimiters)
  /\ isASCII (repetitionSeparator usualDelimiters)
  /\ isASCII (componentSeparator usualDelimiters)
  /\ isASCII (subcomponentSeparator usualDelimiters).
Proof. unfold isASCII. cbn. lia. Qed.

Lemma AbstractHL7_value_avoids_delimiters_witness :
  AbstractHL7 shortMessage (mkPath "PID" 1 2 1 1 0) = Return "2" None
  /\ avoids "|" "2" = true.
Proof.
  assert (E : AbstractHL7 shortMessage (mkPath "PID" 1 2 1 1 0) = Return "2" None)
    by (vm_compute; reflexivity).
  split; [exact E|].
  destruct usualDelimiters_ASCII as (A1 & A2 & A3 & A4).
  assert (F : Field (mkPath "PID" 1 2 1 1 0) <> 0) by discriminate.
  exact (proj1 (AbstractHL7_value_avoids_delimiters shortMessage usualDelimiters
                  (mkPath "PID" 1 2 1 1 0) "2" shortMessage_passes A1 A2 A3 A4
                  eq_refl F E)).
Defined.

(** ** One level further down *)

Lemma pieceAt_of_empty (sep : string) (i : Z) : pieceAt (Split "" sep) i = "".
Proof.
  unfold pieceAt, lookup1, Split, GoSlices.index. cbn [splitFrom].
  destruct (i - 1 <? 0); [reflexivity|].
  destruct (Z.to_nat (i - 1)) as [|[|n]]; reflexivity.
Qed.

Lemma pieceAt_out_of_range (pieces : list string) (i : Z) :
  (i >? GoSlices.len pieces) = true -> pieceAt pieces i = "".
Proof.
  unfold pieceAt, lookup1. intros H.
  destruct (GoSlices.index pieces (i - 1)) eqn:E; [|reflexivity].
  apply index_some_range in E. rewrite Z.gtb_ltb in H. apply Z.ltb_lt in H. lia.
Qed.

Lemma Validate_nested_below (path : HL7Path) :
  Validate path = None ->
  (Component path = 0 -> Subcomponent path = 0)
  /\ (Field path <> 0 -> Segment path <> "").
Proof.
  intros Hv. destruct path as [seg i f r c s]. unfold Validate in Hv.
  cbn [Segment SegmentIndex Field RepetitionIndex Component Subcomponent] in *.
  unfold neqb in Hv.
  destruct (String.eqb_spec seg "") as [->|Nseg].
  - destruct (Z.eqb_spec i 0), (Z.eqb_spec f 0), (Z.eqb_spec r 0),
             (Z.eqb_spec c 0), (Z.eqb_spec s 0);
      cbn [negb orb] in Hv; try discriminate. split; intros; congruence.
  - split; [|intros _; exact Nseg]. intros ->.
    destruct (Z.eqb_spec s 0); [assumption|]. exfalso.
    cbn [Z.eqb negb andb orb] in Hv. rewrite ?andb_true_r in Hv.
    repeat match type of Hv with
           | (if ?b then _ else _) = _ => destruct b; [discriminate|]
           end.
    discriminate.
Qed.

Lemma Validate_with_lower_level (path : HL7Path) (c s : Z) :
  Validate path = None -> Field path <> 0 ->
  isMSH path && (Field path =? 1) = false ->
  c <> 0 ->
  Validate (mkPath (Segment path) (SegmentIndex path) (Field path)
              (RepetitionIndex path) c s) = None.
Proof.
  intros Hv Hf Hmsh Hc.
  destruct (Validate_accepted path Hv) as [_ Hr]. specialize (Hr Hf).
  destruct (Validate_nested_below path Hv) as [_ Hs]. specialize (Hs Hf).
  unfold Validate in *. unfold isMSH in Hmsh.
  cbn [Segment SegmentIndex Field RepetitionIndex Component Subcomponent].
  apply String.eqb_neq in Hs. rewrite Hs in *.
  destruct ((Segment path =? "MSH")%string && (SegmentIndex path !=? 1));
    [discriminate|].
  rewrite Hmsh. cbn [andb].
  apply neqb_true in Hf, Hr, Hc. rewrite Hf, Hr, Hc.
  unfold neqb in Hf, Hr, Hc. apply negb_true_iff in Hf, Hr, Hc.
  rewrite Hf, Hr, Hc. cbn [andb]. rewrite !andb_false_r. reflexivity.
Qed.

Lemma passesHeaderChecks_run_with (m : string) (d : Delimiters)
    (path : HL7Path) (c s : Z) :
  passesHeaderChecks m d -> Validate path = None -> Field path <> 0 ->
  isMSH path && (Field path =? 1) = false -> c <> 0 ->
  AbstractHL7 m (mkPath (Segment path) (SegmentIndex path) (Field path)
                   (RepetitionIndex path) c s)
  = match targetSegment path (segmentsOf m) with
    | Some segment =>
        extractFrom d (mkPath (Segment path) (SegmentIndex path) (Field path)
                         (RepetitionIndex path) c s) segment
    | None => Return "" None
    end.
Proof.
  intros Hp Hv Hf Hmsh Hc.
  rewrite (passesHeaderChecks_run m d _ Hp
             (Validate_with_lower_level path c s Hv Hf Hmsh Hc)).
  - reflexivity.
  - intros E. apply (f_equal Field) in E. cbn in E. contradiction.
  - exact Hmsh.
Qed.

(** X18: asking for component [c] of a path is taking piece [c] of what
    the path without a component gives: for a valid path with a field
    and no component, other than MSH field 1, that yields [v] on a
    message, the same path with component [c >= 1] yields the piece
    number [c] of [v] split on the component separator, or the empty
    string when [v] has fewer pieces. *)
Theorem AbstractHL7_component_of_value :
  forall (m : string) (d : Delimiters) (path : HL7Path) (v : string) (c : Z),
    passesHeaderChecks m d ->
    Validate path = None -> Field path <> 0 -> Component path = 0 ->
    isMSH path && (Field path =? 1) = false ->
    1 <= c ->
    AbstractHL7 m path = Return v None ->
    AbstractHL7 m (withComponent path c)
    = Return (pieceAt (componentList d v) c) None.
Proof.
  intros m d path v c Hp Hv Hf C0 Hmsh Hc H.
  assert (Hz : path <> zeroPath) by (intros ->; apply Hf; reflexivity).
  destruct (Validate_nested_below path Hv) as [S0 _]. specialize (S0 C0).
  unfold withComponent. rewrite S0.
  rewrite (passesHeaderChecks_run_with m d path c 0 Hp Hv Hf Hmsh) by lia.
  rewrite (passesHeaderChecks_run m d path Hp Hv Hz Hmsh) in H.
  destruct (targetSegment path (segmentsOf m)) as [segment|].
  2:{ injection H as <-. unfold componentList. rewrite pieceAt_of_empty.
      reflexivity. }
  unfold extractFrom in *.
  cbn [Segment SegmentIndex Field RepetitionIndex Component Subcomponent].
  change (fieldList d (mkPath (Segment path) (SegmentIndex path) (Field path)
                         (RepetitionIndex path) c 0) segment)
    with (fieldList d path segment).
  change (repetitionList d (mkPath (Segment path) (SegmentIndex path) (Field path)
                              (RepetitionIndex path) c 0))
    with (repetitionList d path).
  rewrite C0 in H. cbn [Z.eqb] in H.
  destruct (Z.eqb_spec (Field path) 0); [contradiction|].
  destruct (fieldList_total d path segment) as [fields Hfl].
  rewrite Hfl in *. cbn [bind] in *.
  destruct (Field path >=? GoSlices.len fields).
  { injection H as <-. unfold componentList. rewrite pieceAt_of_empty.
    reflexivity. }
  destruct (GoSlices.index fields (Field path)) as [field|];
    cbn [orPanic bind] in *; [|discriminate].
  destruct (RepetitionIndex path >? _).
  { injection H as <-. unfold componentList. rewrite pieceAt_of_empty.
    reflexivity. }
  destruct (GoSlices.index (repetitionList d path field) _) as [repetition|];
    cbn [orPanic bind] in *; [|discriminate].
  injection H as <-.
  destruct (Z.eqb_spec c 0); [lia|].
  destruct (c >? GoSlices.len (componentList d repetition)) eqn:G.
  { rewrite (pieceAt_out_of_range _ _ G). reflexivity. }
  unfold pieceAt, lookup1.
  destruct (index_in_range (componentList d repetition) (c - 1)) as [x ->].
  { rewrite Z.gtb_ltb in G. apply Z.ltb_ge in G. lia. }
  reflexivity.
Qed.

Lemma AbstractHL7_component_of_value_witness :
  AbstractHL7 Tests.message (mkPath "PID" 1 3 2 0 0) = Return "123^^^^MRN" None
  /\ AbstractHL7 Tests.message (mkPath "PID" 1 3 2 5 0) = Return "MRN" None
  /\ AbstractHL7 Tests.message (mkPath "PID" 1 3 2 9 0) = Return "" None.
Proof.
  assert (P : passesHeaderChecks Tests.message usualDelimiters).
  { exists "|^~\&|H", "|"%char. split; vm_compute; reflexivity. }
  assert (E : AbstractHL7 Tests.message (mkPath "PID" 1 3 2 0 0)
              = Return "123^^^^MRN" None) by (vm_compute; reflexivity).
  assert (F : Field (mkPath "PID" 1 3 2 0 0) <> 0) by discriminate.
  split; [exact E|]. split.
  - apply (AbstractHL7_component_of_value Tests.message usualDelimiters
             (mkPath "PID" 1 3 2 0 0) "123^^^^MRN" 5 P eq_refl F eq_refl eq_refl);
      [lia | exact E].
  - apply (AbstractHL7_component_of_value Tests.message usualDelimiters
             (mkPath "PID" 1 3 2 0 0) "123^^^^MRN" 9 P eq_refl F eq_refl eq_refl);
      [lia | exact E].
Defined.

Lemma Validate_component_set (path : HL7Path) :
  Validate path = None -> Component path <> 0 ->
  Field path <> 0 /\ isMSH path && (Field path =? 1) = false.
Proof.
  intros Hv Hc. destruct path as [seg i f r c s]. unfold Validate, isMSH in *.
  cbn [Segment SegmentIndex Field RepetitionIndex Component Subcomponent] in *.
  apply neqb_true in Hc. rewrite Hc in Hv.
  destruct (seg =? "")%string.
  - rewrite !orb_true_r in Hv. cbn [orb] in Hv. discriminate.
  - destruct ((seg =? "MSH")%string && (i !=? 1)); [discriminate|].
    cbn [orb] in Hv. rewrite andb_true_r, andb_false_r in Hv.
    destruct ((seg =? "MSH")%string && (f =? 1)); [discriminate|].
    split; [|reflexivity]. intros ->. cbn [Z.eqb neqb negb andb] in Hv.
    destruct (r !=? 0); discriminate.
Qed.

(** X19: asking for subcomponent [s] of a path is taking piece [s] of what
    the path without a subcomponent gives: for a valid path with a
    component and no subcomponent that yields [v] on a message, the same
    path with subcomponent [s >= 1] yields the piece number [s] of [v]
    split on the subcomponent separator, or the empty string when [v]
    has fewer pieces. *)
Theorem AbstractHL7_subcomponent_of_value :
  forall (m : string) (d : Delimiters) (path : HL7Path) (v : string) (s : Z),
    passesHeaderChecks m d ->
    Validate path = None -> Component path <> 0 -> Subcomponent path = 0 ->
    1 <= s ->
    AbstractHL7 m path = Return v None ->
    AbstractHL7 m (withSubcomponent path s)
    = Return (pieceAt (subcomponentList d v) s) None.
Proof.
  intros m d path v s Hp Hv NC S0 Hs H.
  destruct (Validate_component_set path Hv NC) as [Hf Hmsh].
  assert (Hz : path <> zeroPath) by (intros ->; apply Hf; reflexivity).
  unfold withSubcomponent.
  rewrite (passesHeaderChecks_run_with m d path (Component path) s Hp Hv Hf Hmsh NC).
  rewrite (passesHeaderChecks_run m d path Hp Hv Hz Hmsh) in H.
  destruct (targetSegment path (segmentsOf m)) as [segment|].
  2:{ injection H as <-. unfold subcomponentList. rewrite pieceAt_of_empty.
      reflexivity. }
  unfold extractFrom in *.
  cbn [Segment SegmentIndex Field RepetitionIndex Component Subcomponent].
  change (fieldList d (mkPath (Segment path) (SegmentIndex path) (Field path)
                         (RepetitionIndex path) (Component path) s) segment)
    with (fieldList d path segment).
  change (repetitionList d (mkPath (Segment path) (SegmentIndex path) (Field path)
                              (RepetitionIndex path) (Component path) s))
    with (repetitionList d path).
  rewrite S0 in H. cbn [Z.eqb] in H.
  destruct (Z.eqb_spec (Field path) 0); [contradiction|].
  destruct (fieldList_total d path segment) as [fields Hfl].
  rewrite Hfl in *. cbn [bind] in *.
  destruct (Field path >=? GoSlices.len fields).
  { injection H as <-. unfold subcomponentList. rewrite pieceAt_of_empty.
    reflexivity. }
  destruct (GoSlices.index fields (Field path)) as [field|];
    cbn [orPanic bind] in *; [|discriminate].
  destruct (RepetitionIndex path >? _).
  { injection H as <-. unfold subcomponentList. rewrite pieceAt_of_empty.
    reflexivity. }
  destruct (GoSlices.index (repetitionList d path field) _) as [repetition|];
    cbn [orPanic bind] in *; [|discriminate].
  destruct (Z.eqb_spec (Component path) 0); [contradiction|].
  destruct (Component path >? _).
  { injection H as <-. unfold subcomponentList. rewrite pieceAt_of_empty.
    reflexivity. }
  destruct (GoSlices.index (componentList d repetition) _) as [component|];
    cbn [orPanic bind] in *; [|discriminate].
  injection H as <-.
  destruct (Z.eqb_spec s 0); [lia|].
  destruct (s >? GoSlices.len (subcomponentList d component)) eqn:G.
  { rewrite (pieceAt_out_of_range _ _ G). reflexivity. }
  unfold pieceAt, lookup1.
  destruct (index_in_range (subcomponentList d component) (s - 1)) as [x ->].
  { rewrite Z.gtb_ltb in G. apply Z.ltb_ge in G. lia. }
  reflexivity.
Qed.

Lemma AbstractHL7_subcomponent_of_value_witness :
  AbstractHL7 Tests.message (mkPath "ZZZ" 1 2 2 2 0)
  = Return "custom&segment&with" None
  /\ AbstractHL7 Tests.message (mkPath "ZZZ" 1 2 2 2 2) = Return "segment" None.
Proof.
  assert (P : passesHeaderChecks Tests.message usualDelimiters).
  { exists "|^~\&|H", "|"%char. split; vm_compute; reflexivity. }
  assert (E : AbstractHL7 Tests.message (mkPath "ZZZ" 1 2 2 2 0)
              = Return "custom&segment&with" None) by (vm_compute; reflexivity).
  assert (C : Component (mkPath "ZZZ" 1 2 2 2 0) <> 0) by discriminate.
  split; [exact E|].
  apply (AbstractHL7_subcomponent_of_value Tests.message usualDelimiters
           (mkPath "ZZZ" 1 2 2 2 0) "custom&segment&with" 2 P eq_refl C eq_refl);
    [lia | exact E].
Defined.

(** ** No error once the checks have passed *)

(** X20: when the validator accepts the path and the message passes the
    header checks, [AbstractHL7] returns no error, whatever the path
    addresses: from there on it returns a value and nil, or panics. *)
Theorem AbstractHL7_no_error_after_checks :
  forall (m : string) (d : Delimiters) (path : HL7Path) (v : string)
         (err : error),
    passesHeaderChecks m d -> Validate path = None ->
    AbstractHL7 m path = Return v err ->
    err = None.
Proof.
  intros m d path v err (block & fs & Hread & Hcheck) Hv. unfold AbstractHL7.
  rewrite Hv, Hread. cbn [bind]. rewrite Hcheck. cbn [bind].
  destruct (HL7Path_eqb path zeroPath); [congruence|].
  destruct (isMSH path && (Field path =? 1)); [congruence|].
  rewrite scanSegments_target.
  destruct (targetSegment path (segmentsOf m)); [|congruence].
  intros H. apply extractFrom_value in H. tauto.
Qed.

Lemma AbstractHL7_no_error_after_checks_witness :
  AbstractHL7 shortMessage (mkPath "OBX" 3 1 1 0 0) = Return "" None
  /\ (None : error) = None.
Proof.
  assert (E : AbstractHL7 shortMessage (mkPath "OBX" 3 1 1 0 0) = Return "" None)
    by (vm_compute; reflexivity).
  split; [exact E|].
  exact (AbstractHL7_no_error_after_checks shortMessage usualDelimiters
           (mkPath "OBX" 3 1 1 0 0) "" None shortMessage_passes eq_refl E).
Defined.

(** ** The path parser accepts the grammar only *)

Lemma matchPlus_digits_inv {R : Type} (s : string) (k : string -> option R)
    (res : R) :
  matchPlus digit s k = Some res ->
  exists ds s1, s = ds ++ s1 /\ isNumber ds = true /\ k s1 = Some res.
Proof.
  induction s as [|c s IH]; cbn [matchPlus]; [discriminate|].
  destruct (digit c) eqn:D; [|discriminate].
  intros H. apply orElse_some in H as [H|H].
  - destruct (IH H) as (ds & s1 & -> & Hn & Hk).
    exists (String c ds), s1. split; [reflexivity|]. split; [|exact Hk].
    unfold isNumber in *. cbn [String.eqb allDigits negb andb].
    apply andb_true_iff in Hn as [_ Hall]. rewrite D, Hall. reflexivity.
  - exists (String c ""), s. split; [reflexivity|]. split; [|exact H].
    unfold isNumber. cbn [String.eqb allDigits negb andb]. rewrite D. reflexivity.
Qed.

Lemma number_inv {R : Type} (i : nat) (s : string) (caps : captures)
    (k : string -> captures -> option R) (res : R) :
  matchRegex (Capture i (Plus digit)) s caps k = Some res ->
  exists ds s1 caps1,
    s = ds ++ s1 /\ isNumber ds = true /\ k s1 caps1 = Some res.
Proof.
  cbn [matchRegex]. intros H.
  apply matchPlus_digits_inv in H as (ds & s1 & -> & Hn & Hk). eauto 6.
Qed.

Lemma sep_inv {R : Type} (r : regex) (s : string) (caps : captures)
    (k : string -> captures -> option R) (res : R) :
  matchRegex (Cat sep r) s caps k = Some res ->
  exists c s1, s = String c s1 /\ isSep c = true
               /\ matchRegex r s1 caps k = Some res.
Proof.
  unfold sep. cbn [matchRegex]. destruct s as [|c s1]; [discriminate|].
  fold (isSep c). destruct (isSep c) eqn:E; [|discriminate]. eauto.
Qed.

Lemma bracketed_inv {R : Type} (i : nat) (s : string) (caps : captures)
    (k : string -> captures -> option R) (res : R) :
  matchRegex (bracketed i) s caps k = Some res ->
  exists o s1 caps1,
    s = renderBracket o ++ s1 /\ optNumber o = true /\ k s1 caps1 = Some res.
Proof.
  unfold bracketed, lit. intros H.
  change (orElse (matchRegex (Cat (Class (Ascii.eqb "[")) (Cat (Capture i (Plus digit))
                    (Class (Ascii.eqb "]")))) s caps k) (k s caps) = Some res) in H.
  apply orElse_some in H as [H|H].
  - cbn [matchRegex] in H. destruct s as [|c s]; [discriminate|].
    destruct (Ascii.eqb_spec "[" c) as [<-|]; [|discriminate].
    apply matchPlus_digits_inv in H as (ds & s1 & -> & Hn & Hk).
    destruct s1 as [|c1 s1]; [discriminate|].
    destruct (Ascii.eqb_spec "]" c1) as [<-|]; [|discriminate].
    exists (Some ds), s1. eexists. split; [|split; [exact Hn | exact Hk]].
    cbn [renderBracket String.append]. rewrite append_assoc. reflexivity.
  - exists None, s, caps. auto.
Qed.

Lemma endOnly_nil {R : Type} (k : string -> captures -> option R)
    (s : string) (caps : captures) (res : R) :
  endOnly k -> k s caps = Some res -> s = "".
Proof.
  intros E H. destruct s as [|c r]; [reflexivity|]. rewrite E in H. discriminate.
Qed.

Lemma subPart_inv {R : Type} (s : string) (caps : captures)
    (k : string -> captures -> option R) (res : R) :
  endOnly k -> matchRegex subPart s caps k = Some res ->
  exists o, s = renderSub o /\ wellFormedSub o = true.
Proof.
  intros E H. unfold subPart in H.
  change (orElse (matchRegex (Cat sep (Capture 6 (Plus digit))) s caps k)
            (k s caps) = Some res) in H.
  apply orElse_some in H as [H|H].
  - apply sep_inv in H as (c & s1 & -> & Hc & H).
    apply number_inv in H as (ds & s2 & caps1 & -> & Hn & Hk).
    apply (endOnly_nil k) in Hk; [|exact E]. subst s2.
    exists (Some (mkSub c ds)). cbn. rewrite append_nil_r, Hc, Hn. auto.
  - apply (endOnly_nil k) in H; [|exact E]. subst s. exists None. auto.
Qed.

Lemma compPart_inv {R : Type} (s : string) (caps : captures)
    (k : string -> captures -> option R) (res : R) :
  endOnly k -> matchRegex compPart s caps k = Some res ->
  exists o, s = renderComp o /\ wellFormedComp o = true.
Proof.
  intros E H. unfold compPart in H.
  change (orElse (matchRegex (Cat sep (Cat (Capture 5 (Plus digit)) subPart)) s caps k)
            (k s caps) = Some res) in H.
  apply orElse_some in H as [H|H].
  - apply sep_inv in H as (c & s1 & -> & Hc & H).
    change (matchRegex (Capture 5 (Plus digit)) s1 caps
              (fun s2 caps2 => matchRegex subPart s2 caps2 k) = Some res) in H.
    apply number_inv in H as (ds & s2 & caps1 & -> & Hn & Hk).
    apply subPart_inv in Hk as (o & -> & Ho); [|exact E].
    exists (Some (mkComp c ds o)). cbn. rewrite Hc, Hn, Ho. auto.
  - apply (endOnly_nil k) in H; [|exact E]. subst s. exists None. auto.
Qed.

Lemma fieldPart_inv {R : Type} (s : string) (caps : captures)
    (k : string -> captures -> option R) (res : R) :
  endOnly k -> matchRegex fieldPart s caps k = Some res ->
  exists o, s = renderField o /\ wellFormedField o = true.
Proof.
  intros E H. unfold fieldPart in H.
  change (orElse (matchRegex (Cat sep (Cat (Capture 3 (Plus digit))
                    (Cat (bracketed 4) compPart))) s caps k)
            (k s caps) = Some res) in H.
  apply orElse_some in H as [H|H].
  - apply sep_inv in H as (c & s1 & -> & Hc & H).
    change (matchRegex (Capture 3 (Plus digit)) s1 caps
              (fun s2 caps2 =>
                 matchRegex (bracketed 4) s2 caps2
                   (fun s3 caps3 => matchRegex compPart s3 caps3 k)) = Some res) in H.
    apply number_inv in H as (ds & s2 & caps1 & -> & Hn & Hk).
    apply bracketed_inv in Hk as (rep & s3 & caps2 & -> & Hrep & Hk).
    apply compPart_inv in Hk as (o & -> & Ho); [|exact E].
    exists (Some (mkField c ds rep o)). cbn. rewrite Hc, Hn, Hrep, Ho. auto.
  - apply (endOnly_nil k) in H; [|exact E]. subst s. exists None. auto.
Qed.

(** X2: a text that [ParsePath] accepts is the empty text or a text of
    the path grammar: a segment name of three characters, then the
    optional parts in their order, each number one decimal digit or
    more, each separator a hyphen or a dot. *)
Theorem ParsePath_accepts_grammar_only :
  forall (s : string) (path : HL7Path),
    ParsePath s = (path, None) ->
    s = "" \/ exists t, wellFormed t = true /\ s = render t.
Proof.
  intros s path. unfold ParsePath.
  destruct (String.eqb_spec s ""); [left; assumption|].
  destruct (FindStringSubmatch pathExp 6 s) as [match_|] eqn:M; [|discriminate].
  intros _. right.
  pose proof M as M'.
  apply pathExp_match in M' as (c1 & c2 & c3 & rest & -> & U1 & U2 & U3 & _ & _).
  unfold FindStringSubmatch, pathExp, segmentName in M.
  cbn [matchRegex] in M. rewrite U1, U2, U3 in M.
  change (matchRegex afterSegment ?x ?c ?k)
    with (matchRegex (bracketed 2) x c
            (fun s1 caps1 => matchRegex fieldPart s1 caps1 k)) in M.
  apply bracketed_inv in M as (idx & s1 & caps1 & -> & Hidx & M).
  apply fieldPart_inv in M as (field & -> & Hfield);
    [|intros c r caps; reflexivity].
  exists (mkText (String c1 (String c2 (String c3 ""))) idx field).
  split; [|reflexivity].
  unfold wellFormed. cbn [textSegment textIndex textField isSegmentName].
  rewrite U1, U2, U3, Hidx, Hfield. reflexivity.
Qed.

Lemma ParsePath_accepts_grammar_only_witness :
  ParsePath "PV1-3.4" = (mkPath "PV1" 1 3 1 4 0, None)
  /\ ("PV1-3.4" = ""
      \/ exists t, wellFormed t = true /\ "PV1-3.4" = render t).
Proof.
  assert (E : ParsePath "PV1-3.4" = (mkPath "PV1" 1 3 1 4 0, None))
    by (vm_compute; reflexivity).
  split; [exact E|].
  exact (ParsePath_accepts_grammar_only "PV1-3.4" (mkPath "PV1" 1 3 1 4 0) E).
Defined.

(** ** The numbers of a parsed path *)

(** A text the pattern matches is a text of the grammar. *)
Lemma pathExp_match_grammar (s : string) (match_ : list string) :
  FindStringSubmatch pathExp 6 s = Some match_ ->
  exists t, wellFormed t = true /\ s = render t.
Proof.
  intros M. pose proof M as M'.
  apply pathExp_match in M' as (c1 & c2 & c3 & rest & -> & U1 & U2 & U3 & _ & _).
  unfold FindStringSubmatch, pathExp, segmentName in M.
  cbn [matchRegex] in M. rewrite U1, U2, U3 in M.
  change (matchRegex afterSegment ?x ?c ?k)
    with (matchRegex (bracketed 2) x c
            (fun s1 caps1 => matchRegex fieldPart s1 caps1 k)) in M.
  apply bracketed_inv in M as (idx & s1 & caps1 & -> & Hidx & M).
  apply fieldPart_inv in M as (field & -> & Hfield);
    [|intros c r caps; reflexivity].
  exists (mkText (String c1 (String c2 (String c3 ""))) idx field).
  split; [|reflexivity].
  unfold wellFormed. cbn [textSegment textIndex textField isSegmentName].
  rewrite U1, U2, U3, Hidx, Hfield. reflexivity.
Qed.

Lemma written_optNumber (o : option string) :
  optNumber o = true -> emptyOrNumber (written o) = true.
Proof.
  unfold emptyOrNumber. destruct o as [ds|]; cbn [optNumber written].
  - intros ->. apply orb_true_r.
  - reflexivity.
Qed.

(** The capture groups 2 to 6 of a match of [pathExp] hold numbers of
    decimal digits, or nothing: no sign, no space, no letter reaches
    [parseIntOrDefault]. *)
Lemma pathExp_captures_numbers (s : string) (match_ : list string) :
  FindStringSubmatch pathExp 6 s = Some match_ ->
  emptyOrNumber (group match_ 2) = true
  /\ emptyOrNumber (group match_ 3) = true
  /\ emptyOrNumber (group match_ 4) = true
  /\ emptyOrNumber (group match_ 5) = true
  /\ emptyOrNumber (group match_ 6) = true.
Proof.
  intros M. destruct (pathExp_match_grammar s match_ M) as (t & Hw & ->).
  rewrite (FindStringSubmatch_render t Hw) in M.
  assert (E : map (setCapture 0 (render t) (capturesOfText t)) (seq 0 7)
              = match_) by congruence.
  rewrite <- E. clear E M.
  destruct (groups_of_text t (render t)) as (_ & G2 & G3 & G4 & G5 & G6).
  cbv zeta in G2, G3, G4, G5, G6. rewrite G2, G3, G4, G5, G6.
  destruct t as [seg idx field]. unfold wellFormed in Hw.
  cbn [textSegment textIndex textField] in *.
  apply andb_true_iff in Hw as [Hw Hfield].
  apply andb_true_iff in Hw as [_ Hidx].
  split; [apply written_optNumber; exact Hidx|].
  destruct field as [[fsep fd rep comp]|];
    cbn [option_map fieldDigits fieldRepetition fieldComp written
         wellFormedField] in *;
    [|repeat split; reflexivity].
  apply andb_true_iff in Hfield as [Hfield Hcomp].
  apply andb_true_iff in Hfield as [Hfield Hrep].
  apply andb_true_iff in Hfield as [_ Hfd].
  split; [apply (written_optNumber (Some fd)); exact Hfd|].
  split; [apply written_optNumber; exact Hrep|].
  destruct comp as [[csep cd sub]|];
    cbn [option_map compDigits compSub written wellFormedComp] in *;
    [|repeat split; reflexivity].
  apply andb_true_iff in Hcomp as [Hcomp Hsub].
  apply andb_true_iff in Hcomp as [_ Hcd].
  split; [apply (written_optNumber (Some cd)); exact Hcd|].
  destruct sub as [[ssep sd]|];
    cbn [option_map subDigits written wellFormedSub] in *; [|reflexivity].
  apply andb_true_iff in Hsub as [_ Hsd].
  apply (written_optNumber (Some sd)); exact Hsd.
Qed.

Lemma digitValue_range (c : ascii) : digit c = true -> 0 <= digitValue c <= 9.
Proof.
  unfold digit, between, digitValue. intros H.
  apply andb_true_iff in H as [H1 H2].
  apply N.leb_le in H1, H2. cbn in H1, H2. lia.
Qed.

(** A run of decimal digits has a value, and the value is not negative. *)
Lemma decimalFrom_digits (s : string) :
  forall acc, 0 <= acc -> allDigits s = true ->
  exists v, decimalFrom acc s = Some v /\ 0 <= v.
Proof.
  induction s as [|c s IH]; intros acc Hacc H; cbn [decimalFrom allDigits] in *.
  - exists acc. auto.
  - apply andb_true_iff in H as [D H]. rewrite D.
    apply IH; [|exact H]. pose proof (digitValue_range c D). lia.
Qed.

(** On a number of the grammar [parseIntOrDefault] gives the value of
    the digits when it fits an [int], the default otherwise; on the
    empty text, the default. *)
Lemma parseIntOrDefault_of_number (s : string) (defaultVal : Z) :
  emptyOrNumber s = true ->
  (s = "" /\ parseIntOrDefault s defaultVal = defaultVal)
  \/ exists v, decimalFrom 0 s = Some v /\ 0 <= v
               /\ parseIntOrDefault s defaultVal
                  = if v <=? maxInt then v else defaultVal.
Proof.
  unfold emptyOrNumber, isNumber. intros H.
  destruct s as [|c s]; [left; split; reflexivity|].
  cbn [String.eqb negb orb andb] in H. right.
  destruct (decimalFrom_digits (String c s) 0 ltac:(lia) H) as (v & E & Hv).
  exists v. split; [exact E|]. split; [exact Hv|].
  unfold parseIntOrDefault, Sscanf_d. cbn [String.eqb]. rewrite E.
  destruct (v <=? maxInt); reflexivity.
Qed.

Lemma parseIntOrDefault_number_range (s : string) (defaultVal : Z) :
  emptyOrNumber s = true -> 0 <= defaultVal <= maxInt ->
  0 <= parseIntOrDefault s defaultVal <= maxInt.
Proof.
  intros H Hd.
  destruct (parseIntOrDefault_of_number s defaultVal H)
    as [[_ ->] | (v & _ & Hv & ->)]; [exact Hd|].
  destruct (Z.leb_spec v maxInt); lia.
Qed.

(** The five numbers [ParsePath] makes of the captures of a match. *)
Lemma parsed_numbers_fit (s : string) (match_ : list string) :
  FindStringSubmatch pathExp 6 s = Some match_ ->
  forall segment : string,
    fitsInt
      (mkPath segment
         (parseIntOrDefault (group match_ 2) 1)
         (parseIntOrDefault (group match_ 3) 0)
         (parseIntOrDefault (group match_ 4)
            (if parseIntOrDefault (group match_ 3) 0 >? 0 then 1 else 0))
         (parseIntOrDefault (group match_ 5) 0)
         (parseIntOrDefault (group match_ 6) 0)).
Proof.
  intros M segment.
  destruct (pathExp_captures_numbers s match_ M) as (N2 & N3 & N4 & N5 & N6).
  assert (M1 : 1 <= maxInt) by (unfold maxInt; lia).
  pose proof (parseIntOrDefault_number_range (group match_ 2) 1 N2 ltac:(lia)).
  pose proof (parseIntOrDefault_number_range (group match_ 3) 0 N3 ltac:(lia)).
  pose proof (parseIntOrDefault_number_range (group match_ 5) 0 N5 ltac:(lia)).
  pose proof (parseIntOrDefault_number_range (group match_ 6) 0 N6 ltac:(lia)).
  assert (0 <= parseIntOrDefault (group match_ 4)
                 (if parseIntOrDefault (group match_ 3) 0 >? 0 then 1 else 0)
          <= maxInt)
    by (apply parseIntOrDefault_number_range; [exact N4|];
        destruct (parseIntOrDefault (group match_ 3) 0 >? 0); lia).
  unfold fitsInt.
  cbn [SegmentIndex Field RepetitionIndex Component Subcomponent]. tauto.
Qed.

(** X4: whatever the text, the path [ParsePath] returns has its five
    integer fields between 0 and the largest [int]: no text makes a
    negative index, and a number too large is never kept. *)
Theorem ParsePath_fields_fit :
  forall s : string, fitsInt (fst (ParsePath s)).
Proof.
  intros s.
  assert (Z0 : fitsInt zeroPath) by (unfold fitsInt, maxInt; cbn; lia).
  unfold ParsePath. destruct (s =? "")%string; [exact Z0|].
  destruct (FindStringSubmatch pathExp 6 s) as [match_|] eqn:M; [|exact Z0].
  destruct (parseSegmentNameOrError (group match_ 1)) as [segment [err|]];
    [exact Z0|].
  cbn [fst]. exact (parsed_numbers_fit s match_ M segment).
Qed.

Lemma ParsePath_nonNegative (s : string) : nonNegative (fst (ParsePath s)).
Proof.
  assert (Z0 : nonNegative zeroPath) by (unfold nonNegative; cbn; lia).
  unfold ParsePath. destruct (s =? "")%string; [exact Z0|].
  destruct (FindStringSubmatch pathExp 6 s) as [match_|] eqn:M; [|exact Z0].
  destruct (parseSegmentNameOrError (group match_ 1)) as [segment [err|]];
    [exact Z0|].
  cbn [fst]. pose proof (parsed_numbers_fit s match_ M segment) as F.
  unfold fitsInt in F. unfold nonNegative. tauto.
Qed.

(** [AbstractHL7] returns on every path without a negative field, be it
    refused by the validator or not. *)
Lemma AbstractHL7_returns (m : string) (path : HL7Path) :
  nonNegative path -> exists v err, AbstractHL7 m path = Return v err.
Proof.
  intros Hn. unfold AbstractHL7.
  destruct (Validate path) as [e|] eqn:Hv; [eauto|].
  destruct (HL7Path_eqb path zeroPath); [eauto|].
  destruct (readSeparators_total m) as [[e ->] | (block & fs & -> & Hlen)];
    cbn [bind]; [eauto|].
  destruct (isMSH path && (Field path =? 1)); [eauto|].
  destruct (checkSeparators_total block fs Hlen) as [[e ->] | [d ->]];
    cbn [bind]; [eauto|].
  apply scanSegments_total; assumption.
Qed.

(** X5: [AbstractHL7] applied to what [ParsePath] returns never panics:
    for every message and every path text, well formed or not, the
    call returns a string and an error. *)
Theorem AbstractHL7_of_parsed_path_returns :
  forall m s : string,
    exists v err, AbstractHL7 m (fst (ParsePath s)) = Return v err.
Proof.
  intros m s. apply AbstractHL7_returns, ParsePath_nonNegative.
Qed.

(** ** Segment names and numbers *)

(** X7: [parseSegmentNameOrError] returns its argument with a nil error
    exactly on the texts of three bytes that begin with an uppercase
    letter and go on with uppercase letters or digits; on every other
    text it returns the empty string with one of its three errors. *)
Theorem parseSegmentNameOrError_decides_shape :
  forall s : string,
    if isSegmentName s
    then parseSegmentNameOrError s = (s, None)
    else exists err, In err segmentNameErrors
                     /\ parseSegmentNameOrError s = ("", Some err).
Proof.
  intros s. unfold segmentNameErrors.
  destruct s as [|c1 [|c2 [|c3 [|c4 s]]]]; cbn [isSegmentName];
    try (eexists; split; [|reflexivity]; simpl; tauto).
  - unfold parseSegmentNameOrError, upperOrDigit.
    cbn [len String.length Z.of_nat neqb Z.eqb Pos.of_succ_nat Pos.succ
         Pos.eqb negb segmentNameLoop Nat.eqb].
    destruct (upper c1), (upper c2), (digit c2), (upper c3), (digit c3);
      cbn [negb andb orb];
      first [ reflexivity | eexists; split; [|reflexivity]; simpl; tauto ].
  - unfold parseSegmentNameOrError, len. cbn [String.length].
    replace (Z.of_nat (S (S (S (S (String.length s))))) !=? 3) with true.
    + eexists; split; [|reflexivity]; simpl; tauto.
    + symmetry. apply neqb_true. lia.
Qed.

Lemma ParsePath_only_error_witness :
  snd (ParsePath "PV_") = Some "invalid path format"
  /\ "invalid path format" = "invalid path format".
Proof.
  assert (E : snd (ParsePath "PV_") = Some "invalid path format")
    by (vm_compute; reflexivity).
  split; [exact E|].
  symmetry. exact (ParsePath_only_error "PV_" "invalid path format" E).
Defined.

Lemma parseIntOrDefault_out_of_range_witness :
  decimalFrom 0 "9223372036854775808" = Some 9223372036854775808
  /\ maxInt < 9223372036854775808
  /\ parseIntOrDefault "9223372036854775808" 7 = 7
  /\ parseIntOrDefault "9223372036854775807" 7 = 9223372036854775807.
Proof.
  assert (E : decimalFrom 0 "9223372036854775808" = Some 9223372036854775808)
    by (vm_compute; reflexivity).
  assert (B : maxInt < 9223372036854775808) by (unfold maxInt; lia).
  split; [exact E|]. split; [exact B|]. split; [|vm_compute; reflexivity].
  exact (parseIntOrDefault_out_of_range "9223372036854775808"
           9223372036854775808 7 E B).
Defined.

(** ** The field separator itself *)

(** X21: for every message that begins with MSH and has ten bytes or
    more, a valid path to MSH field 1 gets [string(b)] for the byte [b]
    at index 3, whatever the rest of the delimiter block is: the byte
    itself when it is ASCII, and the two bytes of its UTF-8 encoding,
    not the byte, from 0x80 on. *)
Theorem AbstractHL7_MSH1_value :
  forall (m : string) (path : HL7Path) (fs : ascii),
    Validate path = None ->
    isMSH path && (Field path =? 1) = true ->
    HasPrefix m "MSH" = true -> 10 <= len m -> index m 3 = Some fs ->
    AbstractHL7 m path = Return (string_of_byte fs) None
    /\ (isASCII fs -> string_of_byte fs = String fs "")
    /\ (~ isASCII fs -> String.length (string_of_byte fs) = 2%nat
                        /\ string_of_byte fs <> String fs "").
Proof.
  intros m path fs Hv Hmsh Hp Hlen Hfs. split; [|split].
  - unfold AbstractHL7. rewrite Hv.
    assert (Hz : HL7Path_eqb path zeroPath = false).
    { apply HL7Path_eqb_neq. intros ->. discriminate. }
    rewrite Hz.
    assert (Hr : readSeparators m = Next (String.substring 3 7 m, fs))
      by (apply readSeparators_next; auto).
    rewrite Hr. cbn [bind]. rewrite Hmsh. reflexivity.
  - apply string_of_byte_ASCII.
  - unfold isASCII, string_of_byte. intros N.
    destruct (N.ltb_spec (N_of_ascii fs) 128); [contradiction|].
    split; [reflexivity | discriminate].
Qed.

Lemma AbstractHL7_MSH1_value_witness :
  AbstractHL7 (String "M" (String "S" (String "H" (String "233" "^~\&|x|"))))
    (mkPath "MSH" 1 1 1 0 0)
  = Return (String "195" (String "169" "")) None.
Proof.
  apply (AbstractHL7_MSH1_value
           (String "M" (String "S" (String "H" (String "233" "^~\&|x|"))))
           (mkPath "MSH" 1 1 1 0 0) "233");
    first [reflexivity | vm_compute; discriminate].
Defined.
